(** * SamilPowerMySQL: the inverter communication core

    A shallow embedding of [lib/inverter.py] and [lib/statustypes.py]:
    the framing codec ([calculate_checksum], [construct_message],
    [read_message]), the status schema ([StatusType.get_value] and the
    [status_types] registry), the session ([Inverter.status],
    [status_format], [request]) and the sequential part of the keep-alive
    supervisor ([KeepAliveInverter]).

    Python [bytes] are lists of [Byte.byte]; Python [int] is [Z]; a raised
    exception is the [Raise] outcome of a computation. *)

From Stdlib Require Import ZArith NArith String Bool Lia QArith List.
From Stdlib Require Import Strings.Byte.
Import ListNotations.

Local Open Scope Z_scope.

(** ** Bytes and integers *)

Definition bytes := list byte.

(** The integer a byte stands for when a [bytes] object is iterated. *)
Definition byte_val (b : byte) : Z := Z.of_N (Byte.to_N b).

(** The byte of an integer in [0, 256). *)
Definition byte_of_Z (z : Z) : byte :=
  match Byte.of_N (Z.to_N z) with
  | Some b => b
  | None => x00
  end.

(** Python's exceptions, as far as this code raises them. [KeyError]
    carries the key of the failed dictionary lookup, which is [None] or
    an integer here. *)
Inductive exn : Type :=
| OverflowError
| ValueError
| KeyError (key : option Z)
| RuntimeError.

Inductive result (A : Type) : Type :=
| Ok (a : A)
| Raise (e : exn).
Arguments Ok {A} a.
Arguments Raise {A} e.

Definition rbind {A B} (r : result A) (k : A -> result B) : result B :=
  match r with
  | Ok a => k a
  | Raise e => Raise e
  end.


(** [sum(message)]: the builtin adds the items from the left, from 0. *)
Definition sum (message : bytes) : Z :=
  fold_left (fun acc b => acc + byte_val b) message 0.

(** [n.to_bytes(2, byteorder='big')]: two bytes, or [OverflowError] when
    [n] does not fit (or is negative). *)
Definition to_bytes2 (n : Z) : result bytes :=
  if (0 <=? n) && (n <? 65536)
  then Ok [byte_of_Z (n / 256); byte_of_Z (n mod 256)]
  else Raise OverflowError.

(** [int.from_bytes(bs, byteorder='big', signed=False)]. *)
Definition from_bytes_unsigned (bs : bytes) : Z :=
  fold_left (fun acc b => acc * 256 + byte_val b) bs 0.

(** [int.from_bytes(bs, byteorder='big', signed=signed)]: two's complement
    over [8 * len(bs)] bits when signed; the empty string is 0. *)
Definition from_bytes (signed : bool) (bs : bytes) : Z :=
  let u := from_bytes_unsigned bs in
  let w := 8 * Z.of_nat (length bs) in
  if signed && (0 <? w) && (2 ^ (w - 1) <=? u) then u - 2 ^ w else u.

(** ** Framing codec *)

(** [calculate_checksum]: [sum(message).to_bytes(2, byteorder='big')]. *)
Definition calculate_checksum (message : bytes) : result bytes :=
  to_bytes2 (sum message).

(** [construct_message]. *)
Definition construct_message (identifier payload : bytes) : result bytes :=
  let start := [x55; xaa] in
  rbind (to_bytes2 (Z.of_nat (length payload))) (fun payload_size =>
  let message := start ++ identifier ++ payload_size ++ payload in
  rbind (calculate_checksum message) (fun checksum =>
  Ok (message ++ checksum))).

(** [stream.read(n)] on the buffered socket file: the next [n] bytes, or
    fewer when the peer has closed the connection; the stream is the list
    of bytes still to come. *)
Definition read (n : nat) (stream : bytes) : bytes * bytes :=
  (firstn n stream, skipn n stream).

(** [read_message]: the start marker, end-of-file and checksum tests of
    the source are comments, so what remains is the payload size test.
    The result comes with the rest of the stream, also when the size test
    raises (the seven header bytes are consumed by then). *)
Definition read_message (stream : bytes) : result (bytes * bytes) * bytes :=
  let '(start, stream) := read 2 stream in
  let '(identifier, stream) := read 3 stream in
  let '(payload_size_bytes, stream) := read 2 stream in
  let payload_size := from_bytes false payload_size_bytes in
  if (payload_size <? 0) || (4096 <? payload_size)
  then (Raise ValueError, stream)
  else
    let '(payload, stream) := read (Z.to_nat payload_size) stream in
    let '(checksum, stream) := read 2 stream in
    let message := start ++ identifier ++ payload_size_bytes ++ payload in
    (Ok (identifier, payload), stream).

(** Decoding what encoding produced: [read_message] on the bytes of
    [construct_message]. *)
Definition decode_encode (identifier payload : bytes) : result (bytes * bytes) :=
  rbind (construct_message identifier payload) (fun frame =>
  fst (read_message frame)).

(** ** Status schema *)

(** [status_format.find(type_id)]: the first index of the byte, or -1. *)
Fixpoint find (status_format : bytes) (type_id : byte) : Z :=
  match status_format with
  | [] => -1
  | b :: rest =>
      if Byte.eqb b type_id then 0
      else let r := find rest type_id in
           if r =? -1 then -1 else r + 1
  end.

(** [b[lo:hi]] with Python's treatment of indices: a negative index counts
    from the end, and both ends are clamped to the sequence. *)
Definition slice_index (len i : Z) : Z :=
  if i <? 0 then Z.max 0 (len + i) else Z.min i len.

Definition slice (b : bytes) (lo hi : Z) : bytes :=
  let len := Z.of_nat (length b) in
  let lo' := slice_index len lo in
  let hi' := slice_index len hi in
  firstn (Z.to_nat (hi' - lo')) (skipn (Z.to_nat lo') b).

(** [Decimal(n).scaleb(scale)] for an integer [n]: coefficient [n] (with
    its sign) and exponent [scale]. The default context keeps 28 digits, so
    this is exact for the integers of up to eleven bytes; the registry
    reads at most two slots (four bytes) per field. Outside the range of
    [Decimal_exact] below, [scaleb] rounds or raises
    [decimal.InvalidOperation] or [decimal.Overflow], which the pair does
    not show. *)
Record Decimal : Type := mkDecimal { coefficient : Z; exponent : Z }.

(** Where the pair is what [Decimal(n).scaleb(scale)] returns for every
    integer [n] read from the slots of [type_ids]: at most five slots (ten
    bytes, fewer than 28 digits) and a scale from [Etiny] = -1000026 to
    [Etop] = 999972 of the default context, so that nothing is rounded and
    no exponent limit is reached. *)
Definition Decimal_exact (type_ids : list byte) (scale : Z) : bool :=
  (length type_ids <=? 5)%nat && (-1000026 <=? scale) && (scale <=? 999972).

(** What [get_value] returns when it is not [None]. *)
Inductive Value : Type :=
| VBytes (b : bytes)
| VInt (n : Z)
| VDecimal (d : Decimal)
| VStr (s : string).

(** The class hierarchy of statustypes.py as one variant; every class
    keeps its constructor arguments. *)
#[warnings="-register-all"] Inductive StatusType : Type :=
| BytesStatusType (type_ids : list byte)
| IntStatusType (type_ids : list byte) (signed : bool)
| DecimalStatusType (type_ids : list byte) (scale : Z) (signed : bool)
| OperationModeStatusType
| OneOfStatusType (status_types : list StatusType)
| IfPresentStatusType (type_id : byte) (presence : bool) (status_type : StatusType).

(** [BytesStatusType.get_value]. *)
Definition indices_of (type_ids : list byte) (status_format : bytes) : list Z :=
  map (find status_format) type_ids.

Definition Bytes_get_value (type_ids : list byte) (status_format status_payload : bytes)
  : option bytes :=
  let indices := indices_of type_ids status_format in
  if existsb (Z.eqb (-1)) indices then None
  else
    let values := map (fun i => slice status_payload (i * 2) (i * 2 + 2)) indices in
    Some (concat values).

(** [IntStatusType.get_value]. *)
Definition Int_get_value (type_ids : list byte) (signed : bool)
  (status_format status_payload : bytes) : option Z :=
  match Bytes_get_value type_ids status_format status_payload with
  | None => None
  | Some sequence => Some (from_bytes signed sequence)
  end.

(** [DecimalStatusType.get_value]. *)
Definition Decimal_get_value (type_ids : list byte) (scale : Z) (signed : bool)
  (status_format status_payload : bytes) : option Decimal :=
  match Int_get_value type_ids signed status_format status_payload with
  | None => None
  | Some int_val => Some (mkDecimal int_val scale)
  end.

(** The dictionary [operating_modes], looked up at a key that is an
    integer or [None]. *)
Definition operating_modes (key : option Z) : option string :=
  match key with
  | Some 0 => Some "Wait"%string
  | Some 1 => Some "Normal"%string
  | Some 2 => Some "Fault"%string
  | Some 3 => Some "Permanent fault"%string
  | Some 4 => Some "Check"%string
  | Some 5 => Some "PV power off"%string
  | _ => None
  end.

(** [OperationModeStatusType.get_value]: the subscript raises [KeyError]
    with the key when the dictionary does not have it. *)
Definition OperationMode_get_value (status_format status_payload : bytes)
  : result (option Value) :=
  let int_val := Int_get_value [x0c] false status_format status_payload in
  match operating_modes int_val with
  | Some mode => Ok (Some (VStr mode))
  | None => Raise (KeyError int_val)
  end.

Definition is_not_None {A} (o : option A) : bool :=
  match o with Some _ => true | None => false end.

(** [get_value], by the class of the status type. *)
Fixpoint get_value (t : StatusType) (status_format status_payload : bytes)
  : result (option Value) :=
  match t with
  | BytesStatusType type_ids =>
      Ok (option_map VBytes (Bytes_get_value type_ids status_format status_payload))
  | IntStatusType type_ids signed =>
      Ok (option_map VInt (Int_get_value type_ids signed status_format status_payload))
  | DecimalStatusType type_ids scale signed =>
      Ok (option_map VDecimal
            (Decimal_get_value type_ids scale signed status_format status_payload))
  | OperationModeStatusType =>
      OperationMode_get_value status_format status_payload
  | OneOfStatusType status_types =>
      (fix loop (ts : list StatusType) : result (option Value) :=
         match ts with
         | [] => Ok None
         | status_type :: rest =>
             rbind (get_value status_type status_format status_payload) (fun val =>
             if is_not_None val then Ok val else loop rest)
         end) status_types
  | IfPresentStatusType type_id presence status_type =>
      let actual_presence :=
        is_not_None (Bytes_get_value [type_id] status_format status_payload) in
      if Bool.eqb presence actual_presence
      then get_value status_type status_format status_payload
      else Ok None
  end.

(** The registry [status_types], in its declared order. *)
Definition status_types : list (string * StatusType) :=
  [ ("operation_mode", OperationModeStatusType);
    ("total_operation_time", IntStatusType [x09; x0a] false);
    ("pv1_input_power", DecimalStatusType [x27] 0 false);
    ("pv2_input_power", DecimalStatusType [x28] 0 false);
    ("pv1_voltage", DecimalStatusType [x01] (-1) false);
    ("pv2_voltage", DecimalStatusType [x02] (-1) false);
    ("pv1_current", DecimalStatusType [x04] (-1) false);
    ("pv2_current", DecimalStatusType [x05] (-1) false);
    ("output_power",
      OneOfStatusType [DecimalStatusType [x0b] 0 false; DecimalStatusType [x34] 0 false]);
    ("energy_today", DecimalStatusType [x11] (-2) false);
    ("energy_total",
      OneOfStatusType [DecimalStatusType [x07; x08] (-1) false;
                       DecimalStatusType [x35; x36] (-1) false]);
    ("grid_voltage", IfPresentStatusType x51 false (DecimalStatusType [x32] (-1) false));
    ("grid_current", IfPresentStatusType x51 false (DecimalStatusType [x31] (-1) false));
    ("grid_frequency", IfPresentStatusType x51 false (DecimalStatusType [x33] (-2) false));
    ("grid_voltage_r_phase",
      IfPresentStatusType x51 true (DecimalStatusType [x32] (-1) false));
    ("grid_current_r_phase",
      IfPresentStatusType x51 true (DecimalStatusType [x31] (-1) false));
    ("grid_frequency_r_phase",
      IfPresentStatusType x51 true (DecimalStatusType [x33] (-2) false));
    ("grid_voltage_s_phase", DecimalStatusType [x52] (-1) false);
    ("grid_current_s_phase", DecimalStatusType [x51] (-1) false);
    ("grid_frequency_s_phase", DecimalStatusType [x53] (-2) false);
    ("grid_voltage_t_phase", DecimalStatusType [x72] (-1) false);
    ("grid_current_t_phase", DecimalStatusType [x71] (-1) false);
    ("grid_frequency_t_phase", DecimalStatusType [x73] (-2) false);
    ("internal_temperature", DecimalStatusType [x00] (-1) true);
    ("heatsink_temperature", DecimalStatusType [x2f] (-1) true) ]%string.

(** [status_types[name]]. *)
Fixpoint lookup {A} (name : string) (d : list (string * A)) : option A :=
  match d with
  | [] => None
  | (k, v) :: rest => if String.eqb k name then Some v else lookup name rest
  end.

(** Decoding the field of a name; a name that is not in the registry has
    no decoder and no value. *)
Definition field_value (name : string) (status_format status_payload : bytes)
  : result (option Value) :=
  match lookup name status_types with
  | Some type_def => get_value type_def status_format status_payload
  | None => Ok None
  end.

(** The type ids whose slots a status type may read: its own for the
    classes that read slots, those of its alternatives or of its inner
    status type for the composite ones (the gate id of an
    [IfPresentStatusType] is looked for in the format only). *)
Fixpoint slot_ids (t : StatusType) : list byte :=
  match t with
  | BytesStatusType type_ids => type_ids
  | IntStatusType type_ids _ => type_ids
  | DecimalStatusType type_ids _ _ => type_ids
  | OperationModeStatusType => [x0c]
  | OneOfStatusType status_types => flat_map slot_ids status_types
  | IfPresentStatusType _ _ status_type => slot_ids status_type
  end.

(** The slots of these type ids, as far as the format has them, start at
    the end of the payload or after it. *)
Definition slots_beyond_payload (type_ids : list byte)
  (status_format status_payload : bytes) : Prop :=
  forall type_id, In type_id type_ids -> In type_id status_format ->
    Z.of_nat (length status_payload) <= find status_format type_id * 2.

(** Whether a status type is, or has inside it, the operation mode. *)
Fixpoint reads_operation_mode (t : StatusType) : bool :=
  match t with
  | OperationModeStatusType => true
  | OneOfStatusType status_types => existsb reads_operation_mode status_types
  | IfPresentStatusType _ _ status_type => reads_operation_mode status_type
  | _ => false
  end.

(** Whether every [DecimalStatusType] that a status type is or has
    inside is in the range of [Decimal_exact]. *)
Fixpoint decimals_exact (t : StatusType) : bool :=
  match t with
  | DecimalStatusType type_ids scale _ => Decimal_exact type_ids scale
  | OneOfStatusType status_types => forallb decimals_exact status_types
  | IfPresentStatusType _ _ status_type => decimals_exact status_type
  | _ => true
  end.

(** The entries a pass over the registry adds to the sample: one for each
    status type whose value is not [None]. *)
Definition sample_entries (types : list (string * StatusType))
  (status_format payload : bytes) : list (string * Value) :=
  flat_map (fun entry : string * StatusType =>
              match get_value (snd entry) status_format payload with
              | Ok (Some v) => [(fst entry, v)]
              | _ => []
              end) types.

(** ** Session *)

(** The calls of the [logging] module, by call site. *)
Inductive LogRecord : Type :=
| DebugSending (message : bytes)
| WarningUnexpectedResponse (response_id identifier : bytes)
| WarningSizeDiffers (status_format payload : bytes).

(** The state of an [Inverter]: the cache [_status_format], the socket
    file as the bytes the peer still sends ([sock_in], until it closes)
    and the bytes written so far ([sock_out]), and the log. *)
Record Inverter : Type := mkInverter {
  _status_format : option bytes;
  sock_in : bytes;
  sock_out : bytes;
  log : list LogRecord
}.

(** A method of the session: it returns or raises, in a final state, or
    it runs out of the fuel that bounds the loop of [request] ([None]). *)
Definition M (A : Type) : Type := Inverter -> option (result A * Inverter).

Definition ret {A} (a : A) : M A := fun self => Some (Ok a, self).

Definition bind {A B} (m : M A) (k : A -> M B) : M B :=
  fun self =>
    match m self with
    | None => None
    | Some (Ok a, self') => k a self'
    | Some (Raise e, self') => Some (Raise e, self')
    end.

Declare Scope session_scope.
Delimit Scope session_scope with session.
Notation "x <- m ;; k" := (bind m (fun x => k))
  (at level 100, m at next level, right associativity) : session_scope.
Notation "m ;;; k" := (bind m (fun _ => k))
  (at level 100, right associativity) : session_scope.
Local Open Scope session_scope.

Definition logging (r : LogRecord) : M unit :=
  fun self =>
    Some (Ok tt, mkInverter (_status_format self) (sock_in self) (sock_out self)
                            (log self ++ [r])).

(** [Inverter.send]: a message that cannot be constructed is not
    written. The write and the flush are those of a connection that takes
    the bytes; on a connection that is closed they raise [BrokenPipeError]
    or [ValueError], as the docstring says; the model follows a session
    as long as the peer takes what is written. *)
Definition send (identifier payload : bytes) : M unit :=
  fun self =>
    match construct_message identifier payload with
    | Raise e => Some (Raise e, self)
    | Ok message =>
        Some (Ok tt, mkInverter (_status_format self) (sock_in self)
                                (sock_out self ++ message)
                                (log self ++ [DebugSending message]))
    end.

(** [Inverter.receive]. *)
Definition receive : M (bytes * bytes) :=
  fun self =>
    let '(r, stream) := read_message (sock_in self) in
    Some (r, mkInverter (_status_format self) stream (sock_out self) (log self)).

(** [response_id.startswith(expected_response_id)]. *)
Fixpoint startswith (b prefix : bytes) : bool :=
  match prefix, b with
  | [], _ => true
  | _ :: _, [] => false
  | p :: prefix', x :: b' => Byte.eqb x p && startswith b' prefix'
  end.

(** The [while] loop of [request], entered with the response read last;
    [fuel] bounds the number of further responses it reads. *)
Fixpoint request_loop (fuel : nat) (identifier expected_response_id : bytes)
  (response : bytes * bytes) : M (bytes * bytes) :=
  if startswith (fst response) expected_response_id then ret response
  else
    match fuel with
    | O => fun _ => None
    | S fuel' =>
        logging (WarningUnexpectedResponse (fst response) identifier) ;;;
        response' <- receive ;;
        request_loop fuel' identifier expected_response_id response'
    end.

(** [Inverter.request]. *)
Definition request (fuel : nat) (identifier payload expected_response_id : bytes)
  : M (bytes * bytes) :=
  send identifier payload ;;;
  response <- receive ;;
  request_loop fuel identifier expected_response_id response.

(** A response as the peer frames it: [frame] is the frame of a message
    with an identifier of three bytes and a payload of at most 4096 bytes,
    and [expected] tells whether [request] takes its identifier for the
    expected one. *)
Definition on_wire (expected_response_id : bytes) (expected : bool)
  (response : bytes * bytes) (frame : bytes) : Prop :=
  length (fst response) = 3%nat /\
  (length (snd response) <= 4096)%nat /\
  construct_message (fst response) (snd response) = Ok frame /\
  startswith (fst response) expected_response_id = expected.

(** [Inverter.status_format]. *)
Definition status_format (fuel : nat) : M bytes :=
  response <- request fuel [x01; x00; x02] [] [x01; x80] ;;
  ret (snd response).

(** [not self._status_format]: [None] and the empty bytes are false. *)
Definition truthy (o : option bytes) : bool :=
  match o with
  | Some (_ :: _) => true
  | _ => false
  end.

Definition set_status_format (f : bytes) : M unit :=
  fun self => Some (Ok tt, mkInverter (Some f) (sock_in self) (sock_out self) (log self)).

(** The first statement of [status]: afterwards [self._status_format] is
    the bytes this returns. *)
Definition ensure_status_format (fuel : nat) : M bytes :=
  fun self =>
    match _status_format self with
    | Some (b :: f) => ret (b :: f) self
    | _ => (f <- status_format fuel ;; set_status_format f ;;; ret f) self
    end.

(** The loop of [status] over [status_types.items()]: the values that are
    not [None], in order; an exception of [get_value] ends it. *)
Fixpoint status_values (types : list (string * StatusType))
  (status_format payload : bytes) : result (list (string * Value)) :=
  match types with
  | [] => Ok []
  | (name, type_def) :: rest =>
      rbind (get_value type_def status_format payload) (fun val =>
      rbind (status_values rest status_format payload) (fun more =>
      match val with
      | Some v => Ok ((name, v) :: more)
      | None => Ok more
      end))
  end.

Definition lift {A} (r : result A) : M A := fun self => Some (r, self).

(** [Inverter.status]. *)
Definition status (fuel : nat) : M (list (string * Value)) :=
  fmt <- ensure_status_format fuel ;;
  response <- request fuel [x01; x02; x02] [] [x01; x82] ;;
  let payload := snd response in
  (if 2 * Z.of_nat (length fmt) =? Z.of_nat (length payload) then ret tt
   else logging (WarningSizeDiffers fmt payload)) ;;;
  lift (status_values status_types fmt payload).

(** ** Keep-alive supervisor *)

(** A [KeepAliveInverter]: the session it extends, the period, and
    whether the keep-alive thread exists. *)
Record KeepAliveInverter : Type := mkKeepAliveInverter {
  inverter : Inverter;
  keep_alive_period : Q;
  _ka_thread : bool
}.

(** The default of the parameter [keep_alive] of [__init__]. *)
Definition keep_alive_default : Q := 10.

(** [KeepAliveInverter.__init__], for a session on the connected socket;
    [keep_alive] is [None] when the caller leaves the parameter out. The
    constructor starts the keep-alive thread. *)
Definition KeepAliveInverter_init (self : Inverter) (keep_alive : option Q)
  : KeepAliveInverter :=
  mkKeepAliveInverter self
    (match keep_alive with Some k => k | None => keep_alive_default end)
    true.

(** [KeepAliveInverter.keep_alive], on the session: [super().send] and
    [super().receive]. *)
Definition keep_alive : M unit :=
  send [x01; x09; x02] [] ;;;
  _ <- receive ;;
  ret tt.

(** [_ka_runner], run on the outcomes of its successive
    [self._ka_stop.wait(timeout=...)] calls: [true] when the event was
    set, [false] when the wait timed out. It has not returned ([None])
    while these outcomes are all timeouts. *)
Fixpoint _ka_runner (waits : list bool) : M unit :=
  match waits with
  | [] => fun _ => None
  | stopped :: waits' =>
      if stopped then ret tt
      else keep_alive ;;; _ka_runner waits'
  end.

(** ** Strings from the inverter *)

(** What [val.decode('ascii')] gives: the string, or [UnicodeDecodeError]
    when a byte is not below 128. *)
Inductive str_result : Type :=
| Str (s : string)
| UnicodeDecodeError.

(** [val.partition(b'\x00')[0]]: the bytes before the first zero byte, all
    of them when there is none. *)
Fixpoint partition_head (val : bytes) : bytes :=
  match val with
  | [] => []
  | b :: rest => if Byte.eqb b x00 then [] else b :: partition_head rest
  end.

(** [b.decode('ascii')], with the default strict error handling. *)
Definition decode_ascii (b : bytes) : str_result :=
  if forallb (fun c => byte_val c <? 128) b
  then Str (string_of_list_byte b)
  else UnicodeDecodeError.

(** [c.isspace()] for a character below 128: tab to carriage return, the
    four separators 28 to 31, and the space. *)
Definition isspace (c : Ascii.ascii) : bool :=
  let n := Z.of_N (Ascii.N_of_ascii c) in
  ((9 <=? n) && (n <=? 13)) || ((28 <=? n) && (n <=? 32)).

(** [s.lstrip()], [s.rstrip()] and [s.strip()]. *)
Fixpoint lstrip (s : string) : string :=
  match s with
  | EmptyString => EmptyString
  | String c rest => if isspace c then lstrip rest else s
  end.

Fixpoint rstrip (s : string) : string :=
  match s with
  | EmptyString => EmptyString
  | String c rest =>
      match rstrip rest with
      | EmptyString => if isspace c then EmptyString else String c EmptyString
      | rest' => String c rest'
      end
  end.

Definition strip (s : string) : string := rstrip (lstrip s).

(** [decode_string]. *)
Definition decode_string (val : bytes) : str_result :=
  match decode_ascii (partition_head val) with
  | Str s => Str (strip s)
  | UnicodeDecodeError => UnicodeDecodeError
  end.

(** ** Discovery *)

(** The exceptions of [InverterFinder]: [OSError] with its [errno], the
    [RuntimeError] that [open] raises when the socket is already created,
    and [InverterNotFoundError]. *)
Inductive finder_exn : Type :=
| OSError (errno : Z)
| RuntimeError_open
| InverterNotFoundError.

Inductive finder_result (A : Type) : Type :=
| Found (a : A)
| Failed (e : finder_exn).
Arguments Found {A} a.
Arguments Failed {A} e.

(** What the socket calls of one [open] do: they all succeed, or one of
    them raises [OSError]. *)
Inductive open_outcome : Type :=
| Listening
| OpenError (errno : Z).

(** [InverterFinder.open], on [listen_sock] being set: the result, and
    whether [listen_sock] is set afterwards (both [except] clauses reset it
    to [None]). *)
Definition open (listen_sock : bool) (o : open_outcome) : finder_result unit * bool :=
  if listen_sock then (Failed RuntimeError_open, true)
  else
    match o with
    | Listening => (Found tt, true)
    | OpenError errno => (Failed (OSError errno), false)
    end.

(** What [open_with_retries] has done when it ends: its result, the number
    of [open] calls, the number of [sleep(period)] calls, and whether
    [listen_sock] is set. *)
Record retry_run : Type := mkRetryRun {
  outcome : finder_result unit;
  opens : nat;
  sleeps : nat;
  listening : bool
}.

(** The [while True] loop of [open_with_retries], run on the outcomes of
    the successive [open] calls; [tries] is the local variable, [n_opens]
    and [n_sleeps] count the calls made so far. [None] when the outcomes
    run out before the loop ends. *)
Fixpoint open_with_retries_loop (retries tries : Z) (n_opens n_sleeps : nat)
  (listen_sock : bool) (outcomes : list open_outcome) : option retry_run :=
  match outcomes with
  | [] => None
  | o :: outcomes' =>
      match open listen_sock o with
      | (Found _, l) => Some (mkRetryRun (Found tt) (S n_opens) n_sleeps l)
      | (Failed (OSError errno), l) =>
          if negb (errno =? 98) && negb (errno =? 10048)
          then Some (mkRetryRun (Failed (OSError errno)) (S n_opens) n_sleeps l)
          else
            let tries := tries + 1 in
            if tries >=? retries
            then Some (mkRetryRun (Failed (OSError errno)) (S n_opens) n_sleeps l)
            else open_with_retries_loop retries tries (S n_opens) (S n_sleeps) l outcomes'
      | (Failed e, l) => Some (mkRetryRun (Failed e) (S n_opens) n_sleeps l)
      end
  end.

(** [InverterFinder.open_with_retries]. *)
Definition open_with_retries (retries : Z) (listen_sock : bool)
  (outcomes : list open_outcome) : option retry_run :=
  open_with_retries_loop retries 0 0 0 listen_sock outcomes.

(** The message [find_inverter] broadcasts:
    [construct_message(b'\x00\x40\x02', b'I AM SERVER')], which returns
    (lemma [advertisement_constructed]). *)
Definition advertisement : bytes :=
  match construct_message [x00; x40; x02] (list_byte_of_string "I AM SERVER") with
  | Ok message => message
  | Raise _ => []
  end.

(** The [for] loop of [find_inverter] over [range(n)], run on the outcomes
    of the successive [accept] calls ([None] for [socket.timeout]); [sent]
    are the datagrams broadcast so far. The result comes with the datagrams
    sent; [None] when the outcomes run out before the loop ends. *)
Fixpoint find_inverter_loop {conn : Type} (n : nat) (message : bytes)
  (sent : list bytes) (accepts : list (option conn))
  : option (finder_result conn * list bytes) :=
  match n with
  | O => Some (Failed InverterNotFoundError, sent)
  | S n' =>
      match accepts with
      | [] => None
      | Some c :: _ => Some (Found c, sent ++ [message])
      | None :: accepts' => find_inverter_loop n' message (sent ++ [message]) accepts'
      end
  end.

(** [InverterFinder.find_inverter], for the socket calls other than
    [accept] succeeding. *)
Definition find_inverter {conn : Type} (advertisements : Z)
  (accepts : list (option conn)) : option (finder_result conn * list bytes) :=
  find_inverter_loop (Z.to_nat advertisements) advertisement [] accepts.

(** ** Monitor *)

(** The subscripts [status_dict[...]] of one round of the loop of [Start]
    in SolarRiver_get.py, from the call of [inverter.status()] to the test
    of the operation mode, in the order Python evaluates them (lines 112 to
    130: the three lines of padding and the output line for each of the
    four blocks). The rest of these lines ([str], [len], string
    concatenation and repetition, the assignments to [output_list]) raises
    no [KeyError]. *)
Definition Start_subscripts : list string :=
  [ "pv1_input_power";
    "pv1_voltage"; "pv1_input_power";
    "pv1_current"; "pv1_voltage";
    "pv1_input_power"; "pv1_voltage"; "pv1_current";
    "pv2_input_power";
    "pv2_voltage"; "pv2_input_power";
    "pv2_current"; "pv2_voltage";
    "pv2_input_power"; "pv2_voltage"; "pv2_current";
    "grid_frequency";
    "grid_voltage"; "grid_frequency";
    "grid_current"; "grid_voltage";
    "grid_frequency"; "grid_voltage"; "grid_current";
    "output_power";
    "energy_today"; "output_power";
    "energy_total"; "energy_today";
    "output_power"; "energy_today"; "energy_total" ]%string.

(** Evaluating subscripts in order: the key of the [KeyError] that the
    first missing one raises, [None] when the dictionary has them all. *)
Fixpoint first_KeyError {A} (keys : list string) (d : list (string * A))
  : option string :=
  match keys with
  | [] => None
  | k :: keys' =>
      match lookup k d with
      | Some _ => first_KeyError keys' d
      | None => Some k
      end
  end.

(** * Properties *)

(** Unfolds the decoder of a registry field down to [get_value] of its
    status type. *)
Ltac registry_field :=
  unfold field_value;
  cbn [lookup status_types String.eqb Ascii.eqb Bool.eqb].

(** ** Bytes, sums and two-byte integers *)

Lemma byte_val_range (b : byte) : 0 <= byte_val b < 256.
Proof.
  unfold byte_val. pose proof (Byte.to_N_bounded b). lia.
Qed.

Lemma byte_of_Z_val (b : byte) : byte_of_Z (byte_val b) = b.
Proof.
  unfold byte_of_Z, byte_val. now rewrite N2Z.id, Byte.of_to_N.
Qed.

Lemma byte_val_of_Z (z : Z) : 0 <= z < 256 -> byte_val (byte_of_Z z) = z.
Proof.
  intros Hz. unfold byte_of_Z, byte_val.
  destruct (Byte.of_N (Z.to_N z)) as [b|] eqn:E.
  - apply Byte.to_of_N in E. rewrite E. lia.
  - apply Byte.of_N_None_iff in E. lia.
Qed.

Lemma sum_acc (m : bytes) (acc : Z) :
  fold_left (fun a b => a + byte_val b) m acc = acc + sum m.
Proof.
  unfold sum. revert acc.
  induction m as [|b m IH]; intros acc; simpl.
  - lia.
  - rewrite IH, (IH (byte_val b)). lia.
Qed.

Lemma sum_cons (b : byte) (m : bytes) : sum (b :: m) = byte_val b + sum m.
Proof. unfold sum at 1. simpl. apply sum_acc. Qed.

Lemma sum_app (m1 m2 : bytes) : sum (m1 ++ m2) = sum m1 + sum m2.
Proof.
  induction m1 as [|b m1 IH]; simpl.
  - reflexivity.
  - rewrite !sum_cons, IH. lia.
Qed.

Lemma sum_nonneg (m : bytes) : 0 <= sum m.
Proof.
  induction m as [|b m IH].
  - unfold sum; simpl; lia.
  - rewrite sum_cons. pose proof (byte_val_range b). lia.
Qed.

Lemma to_bytes2_Ok (n : Z) :
  0 <= n < 65536 ->
  to_bytes2 n = Ok [byte_of_Z (n / 256); byte_of_Z (n mod 256)].
Proof.
  intros Hn. unfold to_bytes2.
  replace (0 <=? n) with true by (symmetry; apply Z.leb_le; lia).
  replace (n <? 65536) with true by (symmetry; apply Z.ltb_lt; lia).
  reflexivity.
Qed.

Lemma to_bytes2_inv (n : Z) (bs : bytes) :
  to_bytes2 n = Ok bs ->
  0 <= n < 65536 /\ bs = [byte_of_Z (n / 256); byte_of_Z (n mod 256)].
Proof.
  unfold to_bytes2.
  destruct (0 <=? n) eqn:E1; destruct (n <? 65536) eqn:E2; simpl; try discriminate.
  intros [= <-]. apply Z.leb_le in E1. apply Z.ltb_lt in E2. auto.
Qed.

Lemma to_bytes2_Raise (n : Z) :
  65536 <= n -> to_bytes2 n = Raise OverflowError.
Proof.
  intros Hn. unfold to_bytes2.
  replace (n <? 65536) with false by (symmetry; apply Z.ltb_ge; lia).
  now rewrite andb_false_r.
Qed.

Lemma from_bytes_two (a b : byte) :
  from_bytes false [a; b] = byte_val a * 256 + byte_val b.
Proof. reflexivity. Qed.

Lemma from_to_bytes2 (n : Z) (bs : bytes) :
  to_bytes2 n = Ok bs -> from_bytes false bs = n /\ length bs = 2%nat.
Proof.
  intros H. apply to_bytes2_inv in H as [Hn ->]. split; [|reflexivity].
  rewrite from_bytes_two.
  rewrite !byte_val_of_Z.
  - pose proof (Z.div_mod n 256). lia.
  - apply Z.mod_pos_bound. lia.
  - split; [apply Z.div_pos; lia | apply Z.div_lt_upper_bound; lia].
Qed.

(** An unsigned integer read from bytes is not negative. *)
Lemma from_bytes_unsigned_nonneg (bs : bytes) : 0 <= from_bytes false bs.
Proof.
  unfold from_bytes. cbn [andb]. unfold from_bytes_unsigned.
  assert (G : forall acc, 0 <= acc ->
            0 <= fold_left (fun a b => a * 256 + byte_val b) bs acc).
  { induction bs as [|b bs IH]; intros acc Hacc; simpl; [exact Hacc|].
    apply IH. pose proof (byte_val_range b). lia. }
  apply G. lia.
Qed.

(** ** Framing codec *)

(** When [construct_message] returns, the frame has the layout of the
    wire format and the sum of the bytes before the checksum fits 16
    bits. *)
Lemma construct_message_inv (identifier payload frame : bytes) :
  construct_message identifier payload = Ok frame ->
  exists payload_size checksum,
    let message := [x55; xaa] ++ identifier ++ payload_size ++ payload in
    frame = message ++ checksum /\
    to_bytes2 (Z.of_nat (length payload)) = Ok payload_size /\
    to_bytes2 (sum message) = Ok checksum.
Proof.
  unfold construct_message, calculate_checksum, rbind.
  destruct (to_bytes2 (Z.of_nat (length payload))) as [payload_size|] eqn:Es;
    [|discriminate].
  destruct (to_bytes2 (sum _)) as [checksum|] eqn:Ec; [|discriminate].
  intros [= <-]. exists payload_size, checksum. cbv zeta. auto.
Qed.

(** [construct_message] returns when the payload length and the sum of
    the header and payload bytes both fit 16 bits. *)
Lemma construct_message_returns (identifier payload : bytes) :
  Z.of_nat (length payload) < 65536 ->
  sum ([x55; xaa] ++ identifier
       ++ [byte_of_Z (Z.of_nat (length payload) / 256);
           byte_of_Z (Z.of_nat (length payload) mod 256)] ++ payload) < 65536 ->
  exists frame, construct_message identifier payload = Ok frame.
Proof.
  intros Hlen Hsum. unfold construct_message, calculate_checksum.
  rewrite (to_bytes2_Ok (Z.of_nat (length payload))) by lia. cbn [rbind].
  rewrite to_bytes2_Ok by (split; [apply sum_nonneg | exact Hsum]).
  cbn [rbind]. eauto.
Qed.

(** It raises [OverflowError] when the sum does not fit. *)
Lemma construct_message_overflow (identifier payload : bytes) :
  Z.of_nat (length payload) < 65536 ->
  65536 <= sum ([x55; xaa] ++ identifier
                ++ [byte_of_Z (Z.of_nat (length payload) / 256);
                    byte_of_Z (Z.of_nat (length payload) mod 256)] ++ payload) ->
  construct_message identifier payload = Raise OverflowError.
Proof.
  intros Hlen Hsum. unfold construct_message, calculate_checksum.
  rewrite (to_bytes2_Ok (Z.of_nat (length payload))) by lia. cbn [rbind].
  now rewrite to_bytes2_Raise by exact Hsum.
Qed.

(** The frames [construct_message] returns decode to what was encoded,
    and [read_message] consumes them whole. *)
Lemma read_construct_message (identifier payload frame : bytes) :
  length identifier = 3%nat ->
  (length payload <= 4096)%nat ->
  construct_message identifier payload = Ok frame ->
  read_message frame = (Ok (identifier, payload), []).
Proof.
  intros Hid Hlen H.
  apply construct_message_inv in H as (payload_size & checksum & -> & Hs & Hc).
  destruct identifier as [|a [|b [|c [|? ?]]]]; try discriminate.
  pose proof (from_to_bytes2 _ _ Hs) as [Hv Hl].
  pose proof (from_to_bytes2 _ _ Hc) as [_ Hcl].
  destruct payload_size as [|s1 [|s2 [|? ?]]]; try discriminate.
  destruct checksum as [|c1 [|c2 [|? ?]]]; try discriminate.
  unfold read_message, read. cbn [app firstn skipn].
  rewrite Hv.
  replace (Z.of_nat (length payload) <? 0) with false
    by (symmetry; apply Z.ltb_ge; lia).
  replace (4096 <? Z.of_nat (length payload)) with false
    by (symmetry; apply Z.ltb_ge; lia).
  cbn [orb]. rewrite Nat2Z.id.
  rewrite firstn_app, Nat.sub_diag, firstn_all. cbn [firstn].
  rewrite skipn_app, Nat.sub_diag, skipn_all. cbn [skipn app].
  now rewrite app_nil_r.
Qed.

(** On the frames [construct_message] returns, the last two bytes are the
    big-endian sum of the bytes before them, which is its own residue
    modulo 2^16. *)
Lemma construct_message_checksum (identifier payload frame : bytes) :
  construct_message identifier payload = Ok frame ->
  exists message checksum,
    frame = message ++ checksum /\ length checksum = 2%nat /\
    from_bytes false checksum = sum message mod 65536.
Proof.
  intros H.
  apply construct_message_inv in H as (payload_size & checksum & -> & Hs & Hc).
  eexists _, checksum. split; [reflexivity|].
  pose proof (from_to_bytes2 _ _ Hc) as [Hv Hl].
  apply to_bytes2_inv in Hc as [Hr _].
  split; [exact Hl|]. rewrite Hv. symmetry. apply Z.mod_small. exact Hr.
Qed.

(** Whenever [construct_message] returns a frame for a three-byte
    identifier and a payload of at most 4096 bytes, decoding the frame
    gives the identifier and the payload back. *)
Lemma decode_encode_returned (identifier payload frame : bytes) :
  length identifier = 3%nat ->
  (length payload <= 4096)%nat ->
  construct_message identifier payload = Ok frame ->
  decode_encode identifier payload = Ok (identifier, payload).
Proof.
  intros Hid Hlen H. unfold decode_encode. rewrite H. cbn [rbind].
  now rewrite (read_construct_message _ _ _ Hid Hlen H).
Qed.

(** The payload of 257 bytes [ff] under the identifier [00 00 00]: the
    bytes before the checksum add up to 65792, which is 2^16 + 256. *)
Lemma sum_of_overflowing_message :
  sum ([x55; xaa] ++ [x00; x00; x00] ++ [x01; x01] ++ repeat xff 257) = 65792.
Proof. vm_compute. reflexivity. Qed.

(** C1 (the code departs from the claim): the round trip
    [decode(encode(I, P)) = (I, P)] is claimed for every identifier of three
    bytes and every payload of at most 4096 bytes. At the identifier
    [00 00 00] and the payload of 257 bytes [ff], which are in that domain,
    [construct_message] raises [OverflowError] (the byte sum 65792 does not
    fit the two bytes of [to_bytes]), so nothing is decoded and the pair
    does not come back. *)
Theorem decode_encode_overflow :
  length [x00; x00; x00] = 3%nat /\
  length (repeat xff 257) = 257%nat /\
  decode_encode [x00; x00; x00] (repeat xff 257) = Raise OverflowError.
Proof.
  split; [reflexivity|]. split; [apply repeat_length|].
  vm_compute. reflexivity.
Qed.

(** C2 (the code departs from the claim): the checksum is claimed to be
    the byte sum modulo 2^16 on the whole domain, encoding being total
    there. [calculate_checksum] does not reduce the sum: at the identifier
    [00 00 00] and the payload of 257 bytes [ff] the sum is 65792, its
    residue is 256, and [construct_message] returns no frame but raises
    [OverflowError]. *)
Theorem construct_message_not_total :
  calculate_checksum ([x55; xaa] ++ [x00; x00; x00] ++ [x01; x01] ++ repeat xff 257)
    = Raise OverflowError /\
  65792 mod 65536 = 256 /\
  construct_message [x00; x00; x00] (repeat xff 257) = Raise OverflowError.
Proof.
  split.
  - unfold calculate_checksum. rewrite sum_of_overflowing_message.
    apply to_bytes2_Raise. lia.
  - split; [reflexivity|]. vm_compute. reflexivity.
Qed.

(** [read_message] raises for one reason only, the payload size above
    4096; every other stream gives a pair. *)
Lemma read_message_returns (stream : bytes) :
  from_bytes false (firstn 2 (skipn 5 stream)) <= 4096 ->
  exists identifier payload rest,
    read_message stream = (Ok (identifier, payload), rest).
Proof.
  intros Hsize. unfold read_message, read.
  rewrite !skipn_skipn. cbn [Nat.add].
  pose proof (from_bytes_unsigned_nonneg (firstn 2 (skipn 5 stream))) as Hnn.
  replace (_ <? 0) with false by (symmetry; apply Z.ltb_ge; exact Hnn).
  replace (4096 <? _) with false by (symmetry; apply Z.ltb_ge; exact Hsize).
  cbn [orb]. eauto.
Qed.

(** C3 (the code departs from the claim and from the docstring of
    [read_message]): the three failures are claimed, and the docstring
    announces [InverterEOFError] and [ValueError] for them, but the tests
    are commented out. On the empty stream (end of file at the first read)
    [read_message] returns the pair of empty bytes; on a frame that starts
    with [00 00] it returns the identifier and payload; on a frame whose
    last two bytes are [ff ff] where the checksum is [01 04] it returns
    them as well. *)
Theorem read_message_accepts_bad_frames :
  read_message [] = (Ok ([], []), []) /\
  read_message [x00; x00; x01; x02; x02; x00; x00; x01; x04]
    = (Ok ([x01; x02; x02], []), []) /\
  calculate_checksum [x55; xaa; x01; x02; x02; x00; x00] = Ok [x01; x04] /\
  read_message [x55; xaa; x01; x02; x02; x00; x00; xff; xff]
    = (Ok ([x01; x02; x02], []), []).
Proof. repeat split; vm_compute; reflexivity. Qed.

(** ** Status schema: locating the slots *)

Lemma find_range (status_format : bytes) (type_id : byte) :
  find status_format type_id = -1 \/
  0 <= find status_format type_id < Z.of_nat (length status_format).
Proof.
  induction status_format as [|b rest IH]; [left; reflexivity|].
  cbn [find length]. destruct (Byte.eqb b type_id).
  - right. lia.
  - destruct (Z.eqb_spec (find rest type_id) (-1)) as [E|E]; [left; reflexivity|].
    right. lia.
Qed.

(** [find] is not -1 exactly for the bytes that occur in the format. *)
Lemma find_In (status_format : bytes) (type_id : byte) :
  find status_format type_id <> -1 <-> In type_id status_format.
Proof.
  induction status_format as [|b rest IH]; cbn [find In].
  - split; [congruence | tauto].
  - destruct (Byte.eqb b type_id) eqn:E.
    + apply Byte.byte_dec_bl in E. split; [auto | discriminate].
    + apply Byte.eqb_false in E.
      destruct (Z.eqb_spec (find rest type_id) (-1)) as [E1|E1].
      * split; [congruence|]. intros [H|H]; [contradiction|].
        apply IH in H. contradiction.
      * pose proof (find_range rest type_id). split; [|lia].
        intros _. right. apply IH. exact E1.
Qed.

(** [find] gives the first index: the byte stands there and at no index
    before. *)
Lemma find_first_index (status_format : bytes) (type_id : byte) :
  find status_format type_id <> -1 ->
  nth_error status_format (Z.to_nat (find status_format type_id)) = Some type_id /\
  forall j, (j < Z.to_nat (find status_format type_id))%nat ->
            nth_error status_format j <> Some type_id.
Proof.
  induction status_format as [|b rest IH]; cbn [find]; [congruence|].
  destruct (Byte.eqb b type_id) eqn:E.
  - intros _. apply Byte.byte_dec_bl in E. subst b. split; [reflexivity|].
    intros j Hj. simpl in Hj. lia.
  - apply Byte.eqb_false in E.
    destruct (Z.eqb_spec (find rest type_id) (-1)) as [E1|E1]; [congruence|].
    intros _. destruct (IH E1) as [Hn Hf].
    pose proof (find_range rest type_id) as Hr.
    replace (Z.to_nat (find rest type_id + 1)) with (S (Z.to_nat (find rest type_id)))
      by lia.
    split; [exact Hn|].
    intros [|j] Hj; cbn [nth_error]; [congruence|]. apply Hf. lia.
Qed.

(** The slice the source takes at a found index is the slot of two bytes
    at twice the index, cut off where the payload ends. *)
Lemma slice_slot (status_payload : bytes) (i : Z) :
  0 <= i ->
  slice status_payload (i * 2) (i * 2 + 2)
  = firstn 2 (skipn (Z.to_nat (i * 2)) status_payload).
Proof.
  intros Hi. unfold slice, slice_index.
  set (len := Z.of_nat (length status_payload)).
  replace (i * 2 <? 0) with false by (symmetry; apply Z.ltb_ge; lia).
  replace (i * 2 + 2 <? 0) with false by (symmetry; apply Z.ltb_ge; lia).
  destruct (Z_lt_le_dec len (i * 2)) as [H|H].
  - rewrite !Z.min_r by lia. rewrite Z.sub_diag. cbn [Z.to_nat firstn].
    rewrite (skipn_all2 status_payload) by (subst len; lia). reflexivity.
  - rewrite (Z.min_l (i * 2)) by lia.
    destruct (Z_lt_le_dec len (i * 2 + 2)) as [H2|H2].
    + rewrite Z.min_r by lia.
      assert (Hl : length (skipn (Z.to_nat (i * 2)) status_payload)
                   = Z.to_nat (len - i * 2)).
      { rewrite length_skipn. subst len. lia. }
      rewrite <- Hl, firstn_all. symmetry. apply firstn_all2. rewrite Hl. lia.
    + rewrite Z.min_l by lia. replace (i * 2 + 2 - i * 2) with 2 by lia.
      reflexivity.
Qed.

(** A slot that starts at or after the end of the payload is empty. *)
Lemma slice_beyond (status_payload : bytes) (i : Z) :
  0 <= i ->
  Z.of_nat (length status_payload) <= i * 2 ->
  slice status_payload (i * 2) (i * 2 + 2) = [].
Proof.
  intros Hi Hlen. rewrite slice_slot by exact Hi.
  rewrite skipn_all2 by lia. reflexivity.
Qed.

(** ** Status schema: [BytesStatusType] and the classes on top of it *)

Lemma existsb_minus_one (indices : list Z) :
  existsb (Z.eqb (-1)) indices = true <-> In (-1) indices.
Proof.
  rewrite existsb_exists. split.
  - intros (x & Hx & E). apply Z.eqb_eq in E. now subst x.
  - intros H. exists (-1). split; [exact H | apply Z.eqb_refl].
Qed.

(** [None] exactly when one of the type ids does not occur in the
    format. *)
Lemma Bytes_get_value_None (type_ids : list byte) (status_format status_payload : bytes) :
  Bytes_get_value type_ids status_format status_payload = None <->
  exists type_id, In type_id type_ids /\ ~ In type_id status_format.
Proof.
  unfold Bytes_get_value, indices_of.
  destruct (existsb _ _) eqn:E.
  - apply existsb_minus_one, in_map_iff in E as (t & Ht & Hin).
    split; [intros _ | reflexivity].
    exists t. split; [exact Hin|]. rewrite <- find_In. congruence.
  - split; [discriminate|]. intros (t & Hin & Hnot). exfalso.
    assert (H : existsb (Z.eqb (-1)) (map (find status_format) type_ids) = true).
    { apply existsb_minus_one, in_map_iff. exists t. split; [|exact Hin].
      destruct (Z.eq_dec (find status_format t) (-1)) as [H|H]; [exact H|].
      apply find_In in H. contradiction. }
    congruence.
Qed.

(** When every type id occurs, the value is the concatenation, in the
    declared order, of the slices at twice the first index of each. *)
Lemma Bytes_get_value_Some (type_ids : list byte) (status_format status_payload : bytes) :
  (forall type_id, In type_id type_ids -> In type_id status_format) ->
  Bytes_get_value type_ids status_format status_payload
  = Some (concat (map (fun type_id =>
                         slice status_payload (find status_format type_id * 2)
                                              (find status_format type_id * 2 + 2))
                      type_ids)).
Proof.
  intros Hall.
  destruct (Bytes_get_value type_ids status_format status_payload) as [v|] eqn:E.
  - unfold Bytes_get_value, indices_of in E.
    destruct (existsb _ _); [discriminate|].
    rewrite map_map in E. symmetry. exact E.
  - apply Bytes_get_value_None in E as (t & Hin & Hnot).
    exfalso. apply Hnot, Hall, Hin.
Qed.

(** For one type id. *)
Lemma Bytes_get_value_one (type_id : byte) (status_format status_payload : bytes) :
  Bytes_get_value [type_id] status_format status_payload
  = if find status_format type_id =? -1 then None
    else Some (slice status_payload (find status_format type_id * 2)
                                    (find status_format type_id * 2 + 2)).
Proof.
  unfold Bytes_get_value, indices_of. cbn [map existsb concat].
  rewrite orb_false_r, app_nil_r, Z.eqb_sym. reflexivity.
Qed.

(** The payload enters the value of a [Bytes], [Int] or [Decimal] status
    type only through the slices of its type ids: two payloads that agree on
    them give the same value. *)
Lemma leaf_value_from_slots (type_ids : list byte) (status_format p1 p2 : bytes) :
  (forall type_id, In type_id type_ids ->
     slice p1 (find status_format type_id * 2) (find status_format type_id * 2 + 2)
     = slice p2 (find status_format type_id * 2) (find status_format type_id * 2 + 2)) ->
  Bytes_get_value type_ids status_format p1 = Bytes_get_value type_ids status_format p2 /\
  (forall signed,
     Int_get_value type_ids signed status_format p1
     = Int_get_value type_ids signed status_format p2) /\
  (forall scale signed,
     Decimal_get_value type_ids scale signed status_format p1
     = Decimal_get_value type_ids scale signed status_format p2).
Proof.
  intros Hslots.
  assert (HB : Bytes_get_value type_ids status_format p1
               = Bytes_get_value type_ids status_format p2).
  { unfold Bytes_get_value, indices_of. destruct (existsb _ _); [reflexivity|].
    f_equal. f_equal. rewrite !map_map. apply map_ext_in. exact Hslots. }
  split; [exact HB|].
  split; intros; unfold Decimal_get_value, Int_get_value; now rewrite HB.
Qed.

(** [get_value] of the three classes that read slots and interpret them:
    [None] when a type id is missing. *)
Lemma get_value_leaf_absent (type_ids : list byte) (status_format status_payload : bytes) :
  (exists type_id, In type_id type_ids /\ ~ In type_id status_format) ->
  get_value (BytesStatusType type_ids) status_format status_payload = Ok None /\
  (forall signed,
     get_value (IntStatusType type_ids signed) status_format status_payload = Ok None) /\
  (forall scale signed,
     get_value (DecimalStatusType type_ids scale signed) status_format status_payload
     = Ok None).
Proof.
  intros H. apply (Bytes_get_value_None _ _ status_payload) in H.
  cbn [get_value]. unfold Decimal_get_value, Int_get_value. rewrite H.
  repeat split.
Qed.

(** ... and otherwise a value read off the concatenated slots alone. *)
Lemma get_value_leaf_present (type_ids : list byte) (status_format status_payload : bytes) :
  (forall type_id, In type_id type_ids -> In type_id status_format) ->
  let slots :=
    concat (map (fun type_id =>
                   slice status_payload (find status_format type_id * 2)
                                        (find status_format type_id * 2 + 2))
                type_ids) in
  get_value (BytesStatusType type_ids) status_format status_payload
    = Ok (Some (VBytes slots)) /\
  (forall signed,
     get_value (IntStatusType type_ids signed) status_format status_payload
     = Ok (Some (VInt (from_bytes signed slots)))) /\
  (forall scale signed,
     get_value (DecimalStatusType type_ids scale signed) status_format status_payload
     = Ok (Some (VDecimal (mkDecimal (from_bytes signed slots) scale)))).
Proof.
  intros H slots. pose proof (Bytes_get_value_Some _ _ status_payload H) as E.
  cbn [get_value]. unfold Decimal_get_value, Int_get_value. rewrite E.
  repeat split.
Qed.

(** The operation mode, when its type id [0c] is not in the format: the
    integer is [None], which is no key of [operating_modes]. *)
Lemma operation_mode_absent (status_format status_payload : bytes) :
  ~ In x0c status_format ->
  field_value "operation_mode" status_format status_payload = Raise (KeyError None).
Proof.
  intros H. registry_field.
  cbn [get_value]. unfold OperationMode_get_value, Int_get_value.
  rewrite Bytes_get_value_one.
  destruct (Z.eqb_spec (find status_format x0c) (-1)) as [E|E]; [reflexivity|].
  apply find_In in E. contradiction.
Qed.

(** C4 (the code departs from the claim): a field whose type id does not
    occur in the format is claimed to decode to [None]. The classes
    [IntStatusType] and [DecimalStatusType] return [None] there, but
    [OperationModeStatusType.get_value] passes the [None] of its superclass
    on to the dictionary: with the format [01], where [0c] does not occur,
    decoding [operation_mode] raises [KeyError] for the key [None], and so
    does the loop of [status] over the registry. *)
Theorem operation_mode_absent_raises :
  lookup "operation_mode" status_types = Some OperationModeStatusType /\
  find [x01] x0c = -1 /\
  get_value (IntStatusType [x0c] false) [x01] [x00; x00] = Ok None /\
  field_value "operation_mode" [x01] [x00; x00] = Raise (KeyError None) /\
  status_values status_types [x01] [x00; x00] = Raise (KeyError None).
Proof. repeat split; vm_compute; reflexivity. Qed.

(** ** Status schema: the operation mode *)

(** The dictionary has the keys 0 to 5 and no other. *)
Lemma operating_modes_None (n : Z) :
  ~ 0 <= n <= 5 -> operating_modes (Some n) = None.
Proof.
  intros H. destruct n as [|p|p]; [lia| |reflexivity].
  do 3 (destruct p as [p|p|]; try reflexivity; try lia).
Qed.

(** Decoding [operation_mode] in terms of what [find] and the slice give:
    the integer goes through the dictionary, and a key it does not have
    raises [KeyError] with that key. *)
Theorem operation_mode_lookup (status_format status_payload : bytes) :
  find status_format x0c <> -1 ->
  let n := from_bytes false
             (slice status_payload (find status_format x0c * 2)
                                   (find status_format x0c * 2 + 2)) in
  let decoded := field_value "operation_mode" status_format status_payload in
  (n = 0 -> decoded = Ok (Some (VStr "Wait"))) /\
  (n = 1 -> decoded = Ok (Some (VStr "Normal"))) /\
  (n = 2 -> decoded = Ok (Some (VStr "Fault"))) /\
  (n = 3 -> decoded = Ok (Some (VStr "Permanent fault"))) /\
  (n = 4 -> decoded = Ok (Some (VStr "Check"))) /\
  (n = 5 -> decoded = Ok (Some (VStr "PV power off"))) /\
  (~ 0 <= n <= 5 -> decoded = Raise (KeyError (Some n))).
Proof.
  intros Hfind n decoded.
  assert (E : decoded = match operating_modes (Some n) with
                        | Some mode => Ok (Some (VStr mode))
                        | None => Raise (KeyError (Some n))
                        end).
  { subst decoded n. registry_field.
    cbn [get_value].
    unfold OperationMode_get_value, Int_get_value.
    rewrite Bytes_get_value_one.
    destruct (Z.eqb_spec (find status_format x0c) (-1)) as [E|E]; [contradiction|].
    reflexivity. }
  rewrite E.
  repeat split; intros H; try (rewrite H; reflexivity).
  now rewrite (operating_modes_None n H).
Qed.

Lemma operation_mode_lookup_unknown :
  find [x0c] x0c <> -1 /\
  field_value "operation_mode" [x0c] [x00; x07] = Raise (KeyError (Some 7)).
Proof.
  assert (H : find [x0c] x0c <> -1) by (vm_compute; discriminate).
  split; [exact H|].
  apply (operation_mode_lookup [x0c] [x00; x07] H). vm_compute. intros [_ C].
  apply C. reflexivity.
Defined.






(** ** Status schema: gated fields *)

(** [IfPresentStatusType.get_value]: the presence it compares with is
    whether [find] locates the gate id. *)
Lemma IfPresent_get_value (type_id : byte) (presence : bool) (status_type : StatusType)
  (status_format status_payload : bytes) :
  get_value (IfPresentStatusType type_id presence status_type) status_format status_payload
  = if Bool.eqb presence (negb (find status_format type_id =? -1))
    then get_value status_type status_format status_payload
    else Ok None.
Proof.
  cbn [get_value]. rewrite Bytes_get_value_one.
  destruct (find status_format type_id =? -1); reflexivity.
Qed.

(** A [DecimalStatusType] of one type id has a value exactly when the id
    occurs in the format. *)
Lemma Decimal_one_get_value (type_id : byte) (scale : Z) (signed : bool)
  (status_format status_payload : bytes) :
  get_value (DecimalStatusType [type_id] scale signed) status_format status_payload
  = if find status_format type_id =? -1 then Ok None
    else Ok (Some (VDecimal
           (mkDecimal
              (from_bytes signed
                 (slice status_payload (find status_format type_id * 2)
                                       (find status_format type_id * 2 + 2)))
              scale))).
Proof.
  cbn [get_value]. unfold Decimal_get_value, Int_get_value.
  rewrite Bytes_get_value_one.
  destruct (find status_format type_id =? -1); reflexivity.
Qed.

(** C6, as the claim states it, fails when the format has [51] but not
    [32]: the gate of [grid_voltage_r_phase] is open, but its inner decoder
    finds no slot, so neither [grid_voltage] nor [grid_voltage_r_phase] is
    produced. In the same way a format with neither [51] nor [32] produces
    no [grid_voltage]. *)
Lemma gated_field_not_produced :
  find [x51] x51 = 0 /\
  field_value "grid_voltage" [x51] [x00; xe6] = Ok None /\
  field_value "grid_voltage_r_phase" [x51] [x00; xe6] = Ok None /\
  find [x0c] x51 = -1 /\
  field_value "grid_voltage_r_phase" [x0c] [x00; x01] = Ok None /\
  field_value "grid_voltage" [x0c] [x00; x01] = Ok None.
Proof. repeat split; vm_compute; reflexivity. Qed.

(** C6, amended: a gated decoder returns what its inner decoder returns
    when the presence of the gate id in the format ([find] is not -1) equals
    the wanted presence, and [None] otherwise. So when the format contains
    [51], [grid_voltage] is [None] and [grid_voltage_r_phase] is what the
    decimal decoder of type id [32] and scale -1 returns; when the format
    does not contain [51] it is the other way round. That decoder returns a
    value when [32] occurs in the format and [None] when it does not. *)
Theorem gated_get_value (status_format status_payload : bytes) :
  let inner := get_value (DecimalStatusType [x32] (-1) false) status_format status_payload in
  (forall type_id presence status_type,
     get_value (IfPresentStatusType type_id presence status_type)
               status_format status_payload
     = if Bool.eqb (negb (find status_format type_id =? -1)) presence
       then get_value status_type status_format status_payload
       else Ok None) /\
  (find status_format x51 <> -1 ->
     field_value "grid_voltage" status_format status_payload = Ok None /\
     field_value "grid_voltage_r_phase" status_format status_payload = inner) /\
  (find status_format x51 = -1 ->
     field_value "grid_voltage" status_format status_payload = inner /\
     field_value "grid_voltage_r_phase" status_format status_payload = Ok None) /\
  (find status_format x32 <> -1 -> exists d, inner = Ok (Some (VDecimal d))) /\
  (find status_format x32 = -1 -> inner = Ok None).
Proof.
  intros inner. subst inner. split; [|split; [|split; [|split]]].
  - intros type_id presence status_type. rewrite IfPresent_get_value.
    destruct presence, (find status_format type_id =? -1); reflexivity.
  - intros H. apply Z.eqb_neq in H. registry_field.
    rewrite !IfPresent_get_value, H. split; reflexivity.
  - intros H. apply Z.eqb_eq in H. registry_field.
    rewrite !IfPresent_get_value, H. split; reflexivity.
  - intros H. apply Z.eqb_neq in H. rewrite Decimal_one_get_value, H. eauto.
  - intros H. apply Z.eqb_eq in H. rewrite Decimal_one_get_value, H. reflexivity.
Qed.

(** The three-phase format [51 32] with the slot [00 e6] (230) for the
    voltage: [grid_voltage] is [None] and [grid_voltage_r_phase] is 23.0. *)
Lemma gated_get_value_three_phase :
  find [x51; x32] x51 <> -1 /\
  field_value "grid_voltage" [x51; x32] [x00; x05; x00; xe6] = Ok None /\
  field_value "grid_voltage_r_phase" [x51; x32] [x00; x05; x00; xe6]
    = Ok (Some (VDecimal (mkDecimal 230 (-1)))).
Proof.
  assert (H : find [x51; x32] x51 <> -1) by (vm_compute; discriminate).
  split; [exact H|].
  destruct (gated_get_value [x51; x32] [x00; x05; x00; xe6]) as (_ & G & _).
  destruct (G H) as [G1 G2]. split; [exact G1|]. rewrite G2. reflexivity.
Defined.

(** C10: whenever one of [grid_voltage_r_phase], [grid_current_r_phase]
    and [grid_frequency_r_phase] decodes to a value, the gate id [51] occurs
    in the format, and [grid_current_s_phase], whose only type id is [51],
    decodes to a value too. *)
Theorem r_phase_gives_s_phase_current (status_format status_payload : bytes)
  (name : string) (v : Value) :
  In name ["grid_voltage_r_phase"; "grid_current_r_phase"; "grid_frequency_r_phase"]%string ->
  field_value name status_format status_payload = Ok (Some v) ->
  In x51 status_format /\
  exists w, field_value "grid_current_s_phase" status_format status_payload = Ok (Some w).
Proof.
  intros Hname Hv.
  assert (Hgate : find status_format x51 <> -1).
  { intros E. apply Z.eqb_eq in E.
    cbn [In] in Hname.
    destruct Hname as [<-|[<-|[<-|[]]]]; unfold field_value in Hv;
      cbn [lookup status_types String.eqb Ascii.eqb Bool.eqb] in Hv;
      rewrite IfPresent_get_value, E in Hv; discriminate. }
  split; [apply find_In; exact Hgate|].
  registry_field. rewrite Decimal_one_get_value.
  apply Z.eqb_neq in Hgate. rewrite Hgate. eauto.
Qed.

Lemma r_phase_gives_s_phase_current_three_phase :
  field_value "grid_current_r_phase" [x51; x31] [x00; x07; x00; x19]
    = Ok (Some (VDecimal (mkDecimal 25 (-1)))) /\
  In x51 [x51; x31] /\
  exists w, field_value "grid_current_s_phase" [x51; x31] [x00; x07; x00; x19]
            = Ok (Some w).
Proof.
  assert (H : field_value "grid_current_r_phase" [x51; x31] [x00; x07; x00; x19]
              = Ok (Some (VDecimal (mkDecimal 25 (-1))))) by reflexivity.
  split; [exact H|].
  apply (r_phase_gives_s_phase_current [x51; x31] [x00; x07; x00; x19]
           "grid_current_r_phase" (VDecimal (mkDecimal 25 (-1)))).
  - cbn [In]. right. left. reflexivity.
  - exact H.
Defined.

(** ** Status schema: slots beyond the end of the payload *)

(** Induction over status types, with the hypothesis for every
    alternative of a [OneOfStatusType]. *)
Lemma StatusType_induction (P : StatusType -> Prop) :
  (forall type_ids, P (BytesStatusType type_ids)) ->
  (forall type_ids signed, P (IntStatusType type_ids signed)) ->
  (forall type_ids scale signed, P (DecimalStatusType type_ids scale signed)) ->
  P OperationModeStatusType ->
  (forall status_types, Forall P status_types -> P (OneOfStatusType status_types)) ->
  (forall type_id presence status_type,
     P status_type -> P (IfPresentStatusType type_id presence status_type)) ->
  forall t, P t.
Proof.
  intros HB HI HD HO HOne HIf.
  fix IH 1. intros [ids|ids signed|ids scale signed| |ts|type_id presence t].
  - apply HB.
  - apply HI.
  - apply HD.
  - apply HO.
  - apply HOne. induction ts as [|t ts IHts]; constructor; [apply IH | exact IHts].
  - apply HIf, IH.
Qed.

(** The bytes read for type ids whose slots lie beyond the payload are
    the bytes read on the empty payload. *)
Lemma Bytes_get_value_beyond (type_ids : list byte) (status_format status_payload : bytes) :
  slots_beyond_payload type_ids status_format status_payload ->
  Bytes_get_value type_ids status_format status_payload
  = Bytes_get_value type_ids status_format [].
Proof.
  intros H. unfold Bytes_get_value, indices_of.
  destruct (existsb _ _) eqn:E; [reflexivity|].
  f_equal. f_equal. rewrite !map_map. apply map_ext_in. intros type_id Hin.
  pose proof (find_range status_format type_id) as [E1|Hr].
  - exfalso. rewrite <- not_true_iff_false in E. apply E.
    apply existsb_minus_one, in_map_iff. eauto.
  - assert (Hf : In type_id status_format) by (apply find_In; lia).
    rewrite slice_beyond; [|lia|apply H; assumption].
    rewrite slice_beyond; [reflexivity|lia|simpl; lia].
Qed.

(** Every status type decodes a payload that ends before its slots as it
    decodes the empty payload. *)
Lemma get_value_beyond (t : StatusType) (status_format status_payload : bytes) :
  slots_beyond_payload (slot_ids t) status_format status_payload ->
  get_value t status_format status_payload = get_value t status_format [].
Proof.
  induction t as [ids|ids signed|ids scale signed| |ts IH|type_id presence t IH]
    using StatusType_induction; cbn [slot_ids]; intros H.
  - cbn [get_value]. now rewrite (Bytes_get_value_beyond _ _ _ H).
  - cbn [get_value]. unfold Int_get_value. now rewrite (Bytes_get_value_beyond _ _ _ H).
  - cbn [get_value]. unfold Decimal_get_value, Int_get_value.
    now rewrite (Bytes_get_value_beyond _ _ _ H).
  - cbn [get_value]. unfold OperationMode_get_value, Int_get_value.
    now rewrite (Bytes_get_value_beyond _ _ _ H).
  - cbn [get_value]. induction IH as [|t ts Ht _ IHts]; [reflexivity|].
    rewrite Ht.
    + destruct (get_value t status_format []) as [val|e]; cbn [rbind]; [|reflexivity].
      destruct (is_not_None val); [reflexivity|]. apply IHts.
      intros type_id Hin. apply H. cbn [flat_map]. apply in_or_app. now right.
    + intros type_id Hin. apply H. cbn [flat_map]. apply in_or_app. now left.
  - rewrite !IfPresent_get_value.
    destruct (Bool.eqb _ _); [apply IH; exact H | reflexivity].
Qed.

(** On the empty payload the present type ids give the empty bytes, the
    integer 0 and the decimal 0 with the scale as its exponent. *)
Lemma Bytes_get_value_empty (type_ids : list byte) (status_format : bytes) :
  (forall type_id, In type_id type_ids -> In type_id status_format) ->
  Bytes_get_value type_ids status_format [] = Some [].
Proof.
  intros H. rewrite (Bytes_get_value_Some _ _ _ H). f_equal.
  induction type_ids as [|t ids IH]; [reflexivity|]. cbn [map concat].
  rewrite IH by (intros; apply H; now right).
  unfold slice. now rewrite skipn_nil, firstn_nil.
Qed.

(** What [status] collects is what [get_value] gives for the name. *)
Lemma status_values_lookup (types : list (string * StatusType))
  (status_format payload : bytes) (sample : list (string * Value))
  (name : string) (type_def : StatusType) (v : Value) :
  status_values types status_format payload = Ok sample ->
  lookup name types = Some type_def ->
  get_value type_def status_format payload = Ok (Some v) ->
  lookup name sample = Some v.
Proof.
  revert sample. induction types as [|[k t] types IH]; intros sample; [discriminate|].
  cbn [status_values lookup].
  destruct (get_value t status_format payload) as [val|e] eqn:Et; cbn [rbind];
    [|discriminate].
  destruct (status_values types status_format payload) as [more|e] eqn:Em;
    cbn [rbind]; [|discriminate].
  destruct (String.eqb k name) eqn:Ek.
  - intros Hs [= <-] Hv. rewrite Hv in Et. injection Et as <-.
    injection Hs as <-. cbn [lookup]. now rewrite Ek.
  - intros Hs Hl Hv. specialize (IH more eq_refl Hl Hv).
    destruct val as [v'|]; injection Hs as <-; [|exact IH].
    cbn [lookup]. now rewrite Ek.
Qed.

(** ** Session *)

Section Request.

Variables identifier payload expected_response_id : bytes.

(** Reading responses writes nothing and leaves the cache alone. *)
Lemma request_loop_frame (fuel : nat) :
  forall (response : bytes * bytes) (self self' : Inverter) (r : result (bytes * bytes)),
  request_loop fuel identifier expected_response_id response self = Some (r, self') ->
  _status_format self' = _status_format self /\ sock_out self' = sock_out self.
Proof.
  induction fuel as [|fuel IH]; intros response self self' r; cbn [request_loop];
    destruct (startswith (fst response) expected_response_id).
  - intros [= _ <-]. auto.
  - discriminate.
  - intros [= _ <-]. auto.
  - unfold bind, logging, receive. cbn [sock_in _status_format sock_out log].
    destruct (read_message (sock_in self)) as [[response'|e] stream].
    + intros H. apply IH in H. exact H.
    + intros [= _ <-]. auto.
Qed.

Variable message : bytes.
Hypothesis constructed : construct_message identifier payload = Ok message.

(** [request] writes the one frame of its message and leaves the cache
    alone. *)
Lemma request_frame (fuel : nat) (self self' : Inverter) (r : result (bytes * bytes)) :
  request fuel identifier payload expected_response_id self = Some (r, self') ->
  _status_format self' = _status_format self /\
  sock_out self' = sock_out self ++ message.
Proof.
  unfold request, bind, send, receive. rewrite constructed.
  cbn [sock_in _status_format sock_out log].
  destruct (read_message (sock_in self)) as [[response|e] stream].
  - intros H. apply request_loop_frame in H. exact H.
  - intros [= _ <-]. auto.
Qed.

(** When the next message on the stream has the expected identifier,
    [request] returns it, whatever the fuel. *)
Lemma request_first_response (fuel : nat) (self : Inverter)
  (response : bytes * bytes) (stream : bytes) :
  read_message (sock_in self) = (Ok response, stream) ->
  startswith (fst response) expected_response_id = true ->
  request fuel identifier payload expected_response_id self
  = Some (Ok response,
          mkInverter (_status_format self) stream (sock_out self ++ message)
                     (log self ++ [DebugSending message])).
Proof.
  intros Hread Hstart. unfold request, bind, send, receive. rewrite constructed.
  cbn [sock_in _status_format sock_out log]. rewrite Hread.
  destruct fuel; cbn [request_loop]; rewrite Hstart; reflexivity.
Qed.

End Request.

(** With a cached format that is not empty, [status] does not fetch. *)
Lemma ensure_status_format_cached (fuel : nat) (self : Inverter) (fmt : bytes) :
  _status_format self = Some fmt -> fmt <> [] ->
  ensure_status_format fuel self = Some (Ok fmt, self).
Proof.
  intros H Hne. unfold ensure_status_format. rewrite H.
  destruct fmt; [contradiction | reflexivity].
Qed.

(** Without one, it fetches and writes the cache. *)
Lemma ensure_status_format_fetched (fuel : nat) (self self1 : Inverter) (f : bytes) :
  truthy (_status_format self) = false ->
  status_format fuel self = Some (Ok f, self1) ->
  ensure_status_format fuel self
  = Some (Ok f, mkInverter (Some f) (sock_in self1) (sock_out self1) (log self1)).
Proof.
  intros Ht Hf. unfold ensure_status_format.
  destruct (_status_format self) as [[|b fmt]|]; try discriminate;
    unfold bind; rewrite Hf; reflexivity.
Qed.

(** X19: a [status] call on a cached, non-empty format, however it ends,
    sends the status request [01 02 02] and nothing else, and the cache
    stays as it is. *)
Lemma status_cached_one_request (fuel : nat) (self self' : Inverter) (fmt : bytes)
  (r : result (list (string * Value))) :
  _status_format self = Some fmt -> fmt <> [] ->
  status fuel self = Some (r, self') ->
  _status_format self' = Some fmt /\
  sock_out self' = sock_out self ++ [x55; xaa; x01; x02; x02; x00; x00; x01; x04].
Proof.
  intros Hc Hne. unfold status. unfold bind at 1.
  rewrite (ensure_status_format_cached fuel self fmt Hc Hne).
  unfold bind at 1.
  destruct (request fuel [x01; x02; x02] [] [x01; x82] self)
    as [[[response|e] self1]|] eqn:Er; [| |discriminate].
  - apply (request_frame [x01; x02; x02] [] [x01; x82]
             [x55; xaa; x01; x02; x02; x00; x00; x01; x04] eq_refl)
      in Er as [E1 E2].
    unfold bind, lift, logging, ret.
    destruct (_ =? _); intros [= _ <-]; cbn [_status_format sock_out];
      rewrite E1, E2; auto.
  - apply (request_frame [x01; x02; x02] [] [x01; x82]
             [x55; xaa; x01; x02; x02; x00; x00; x01; x04] eq_refl)
      in Er as [E1 E2].
    intros [= _ <-]. rewrite E1, E2. auto.
Qed.

(** C9 (the code departs from the claim): the cache is claimed to be
    written once and read by every later [status] call, whatever format the
    device returns. [status] tests the cache with [not], which holds for the
    empty bytes as for [None]: when the device answers the format request
    [01 00 02] with an empty payload, the first [status] call caches the
    empty format (and ends in the [KeyError] of the operation mode), and the
    second call sends the format request again before its status request. *)
Theorem status_refetches_empty_format :
  let format_request := [x55; xaa; x01; x00; x02; x00; x00; x01; x02] in
  let status_request := [x55; xaa; x01; x02; x02; x00; x00; x01; x04] in
  let format_reply := [x55; xaa; x01; x80; x00; x00; x00; x01; x80] in
  let status_reply := [x55; xaa; x01; x82; x00; x00; x00; x01; x82] in
  let self0 :=
    mkInverter None (format_reply ++ status_reply ++ format_reply ++ status_reply)
               [] [] in
  construct_message [x01; x00; x02] [] = Ok format_request /\
  construct_message [x01; x02; x02] [] = Ok status_request /\
  read_message format_reply = (Ok ([x01; x80; x00], []), []) /\
  exists self1 self2,
    status 0 self0 = Some (Raise (KeyError None), self1) /\
    _status_format self1 = Some [] /\
    sock_out self1 = format_request ++ status_request /\
    status 0 self1 = Some (Raise (KeyError None), self2) /\
    _status_format self2 = Some [] /\
    sock_out self2 = (format_request ++ status_request)
                     ++ format_request ++ status_request.
Proof.
  cbv zeta. split; [reflexivity|]. split; [reflexivity|]. split; [reflexivity|].
  eexists. eexists.
  split; [vm_compute; reflexivity|].
  split; [reflexivity|]. split; [reflexivity|].
  split; [vm_compute; reflexivity|].
  split; reflexivity.
Qed.

(** C5 (the code departs from the claim and from the docstring of
    [StatusType.get_value], "None if the value is absent"): with the cached
    format [0c 27] and a status payload of the two bytes [00 01], the sizes
    differ, the warning is logged and decoding goes on, as claimed; but the
    slot of [27] is bytes 2 and 3, beyond the end of the payload, and
    [pv1_input_power] is reported as the decimal 0, a value the payload does
    not hold, where the claim says it is reported as [None]. *)
Lemma status_reports_field_beyond_payload :
  let self := mkInverter (Some [x0c; x27])
                [x55; xaa; x01; x82; x00; x00; x02; x00; x01; x01; x85] [] [] in
  find [x0c; x27] x27 * 2 = 2 /\
  Z.of_nat (length [x00; x01]) <= find [x0c; x27] x27 * 2 /\
  exists self',
    status 0 self
    = Some (Ok [("operation_mode", VStr "Normal");
                ("pv1_input_power", VDecimal (mkDecimal 0 0))]%string, self') /\
    log self' = [DebugSending [x55; xaa; x01; x02; x02; x00; x00; x01; x04];
                 WarningSizeDiffers [x0c; x27] [x00; x01]].
Proof.
  cbv zeta. split; [reflexivity|]. split; [simpl; lia|].
  eexists. split; [vm_compute; reflexivity|].
  reflexivity.
Qed.

(** What [status] computes when the length of the status payload differs
    from twice the length of a cached, non-empty format: it logs the
    warning and decodes the payload it received; a status type whose slots
    start at or beyond the end of the payload is decoded as on the empty
    payload, its slots read as empty bytes, which gives 0 for an integer,
    0 with the scale as exponent for a decimal and "Wait" for the operation
    mode. *)
Theorem status_size_differs (fuel : nat) (self self' : Inverter) (fmt : bytes)
  (response : bytes * bytes) :
  _status_format self = Some fmt -> fmt <> [] ->
  request fuel [x01; x02; x02] [] [x01; x82] self = Some (Ok response, self') ->
  2 * Z.of_nat (length fmt) <> Z.of_nat (length (snd response)) ->
  let payload := snd response in
  status fuel self
    = Some (status_values status_types fmt payload,
            mkInverter (_status_format self') (sock_in self') (sock_out self')
                       (log self' ++ [WarningSizeDiffers fmt payload])) /\
  (forall name type_def,
     lookup name status_types = Some type_def ->
     slots_beyond_payload (slot_ids type_def) fmt payload ->
     field_value name fmt payload = field_value name fmt []) /\
  (forall sample name type_ids,
     status_values status_types fmt payload = Ok sample ->
     (forall type_id, In type_id type_ids -> In type_id fmt) ->
     slots_beyond_payload type_ids fmt payload ->
     (forall signed,
        lookup name status_types = Some (IntStatusType type_ids signed) ->
        lookup name sample = Some (VInt 0)) /\
     (forall scale signed,
        lookup name status_types = Some (DecimalStatusType type_ids scale signed) ->
        lookup name sample = Some (VDecimal (mkDecimal 0 scale))) /\
     (type_ids = [x0c] ->
        lookup "operation_mode" sample = Some (VStr "Wait"))).
Proof.
  intros Hc Hne Hreq Hsize payload. split; [|split].
  - unfold status. unfold bind at 1.
    rewrite (ensure_status_format_cached fuel self fmt Hc Hne).
    unfold bind at 1. rewrite Hreq. fold payload.
    apply Z.eqb_neq in Hsize. fold payload in Hsize. rewrite Hsize.
    reflexivity.
  - intros name type_def Hl Hb. unfold field_value. rewrite Hl.
    apply get_value_beyond, Hb.
  - intros sample name type_ids Hs Hin Hb.
    pose proof (Bytes_get_value_beyond _ _ _ Hb) as E.
    rewrite (Bytes_get_value_empty _ _ Hin) in E.
    split; [|split].
    + intros signed Hl. apply (status_values_lookup _ _ _ _ _ _ _ Hs Hl).
      cbn [get_value]. unfold Int_get_value. rewrite E.
      now destruct signed.
    + intros scale signed Hl. apply (status_values_lookup _ _ _ _ _ _ _ Hs Hl).
      cbn [get_value]. unfold Decimal_get_value, Int_get_value. rewrite E.
      now destruct signed.
    + intros ->.
      apply (status_values_lookup _ _ _ _ "operation_mode" OperationModeStatusType _ Hs);
        [reflexivity|].
      cbn [get_value]. unfold OperationMode_get_value, Int_get_value.
      rewrite E. reflexivity.
Qed.

(** The format [0c 27] against the payload [00 01]. *)
Lemma status_size_differs_short_payload :
  let self := mkInverter (Some [x0c; x27])
                [x55; xaa; x01; x82; x00; x00; x02; x00; x01; x01; x85] [] [] in
  let sent := [x55; xaa; x01; x02; x02; x00; x00; x01; x04] in
  status 0 self
  = Some (Ok [("operation_mode", VStr "Normal");
              ("pv1_input_power", VDecimal (mkDecimal 0 0))]%string,
          mkInverter (Some [x0c; x27]) [] sent
            [DebugSending sent; WarningSizeDiffers [x0c; x27] [x00; x01]]) /\
  field_value "pv1_input_power" [x0c; x27] [x00; x01]
  = field_value "pv1_input_power" [x0c; x27] [].
Proof.
  cbv zeta.
  pose (self := mkInverter (Some [x0c; x27])
                  [x55; xaa; x01; x82; x00; x00; x02; x00; x01; x01; x85] [] []).
  pose (sent := [x55; xaa; x01; x02; x02; x00; x00; x01; x04]).
  assert (Hreq : request 0 [x01; x02; x02] [] [x01; x82] self
                 = Some (Ok ([x01; x82; x00], [x00; x01]),
                         mkInverter (Some [x0c; x27]) [] sent [DebugSending sent]))
    by reflexivity.
  assert (Hne : [x0c; x27] <> []) by discriminate.
  assert (Hsize : 2 * Z.of_nat (length [x0c; x27])
                  <> Z.of_nat (length (snd ([x01; x82; x00], [x00; x01]))))
    by (simpl; lia).
  destruct (status_size_differs 0 self _ [x0c; x27] _ eq_refl Hne Hreq Hsize)
    as (Hstatus & Hfield & _).
  split.
  - exact Hstatus.
  - apply (Hfield "pv1_input_power"%string (DecimalStatusType [x27] 0 false));
      [reflexivity|].
    intros type_id [<-|[]] _. simpl. lia.
Defined.

(** ** Keep-alive supervisor *)

(** One [keep_alive] writes the one frame of the request [01 09 02] with
    an empty payload and reads one message, whose identifier and payload it
    drops. *)
Lemma keep_alive_exchange (self : Inverter) :
  let sent := [x55; xaa; x01; x09; x02; x00; x00; x01; x0b] in
  construct_message [x01; x09; x02] [] = Ok sent /\
  keep_alive self
  = Some (match fst (read_message (sock_in self)) with
          | Ok _ => Ok tt
          | Raise e => Raise e
          end,
          mkInverter (_status_format self) (snd (read_message (sock_in self)))
                     (sock_out self ++ sent)
                     (log self ++ [DebugSending sent])).
Proof.
  cbv zeta. split; [reflexivity|].
  unfold keep_alive, bind, send, receive, ret.
  change (construct_message [x01; x09; x02] [])
    with (Ok [x55; xaa; x01; x09; x02; x00; x00; x01; x0b]).
  cbn [sock_in _status_format sock_out log].
  destruct (read_message (sock_in self)) as [[response|e] stream]; reflexivity.
Qed.

(** X20: when [_ka_runner] returns after [n] timeouts and a stop, it has
    written [n] keep-alive requests, one for each timeout, and nothing
    else; what [wait] would give after the stop plays no part. *)
Lemma _ka_runner_requests (n : nat) :
  forall (waits : list bool) (self self' : Inverter),
  _ka_runner (repeat false n ++ true :: waits) self = Some (Ok tt, self') ->
  sock_out self'
  = sock_out self
    ++ concat (repeat [x55; xaa; x01; x09; x02; x00; x00; x01; x0b] n).
Proof.
  induction n as [|n IH]; intros waits self self'; cbn [repeat app _ka_runner concat].
  - intros [= <-]. now rewrite app_nil_r.
  - unfold bind at 1. destruct (keep_alive_exchange self) as [_ ->].
    destruct (fst (read_message (sock_in self))); [|discriminate].
    intros H. apply IH in H. rewrite H. cbn [sock_out].
    now rewrite <- app_assoc.
Qed.

(** C8 (the code departs from the claim and from its own docstring): the
    period is claimed to default to 11 seconds, and the docstring of
    [__init__] speaks of the default value of 11 seconds, but the default of
    the parameter is 10.0: a [KeepAliveInverter] made without the argument
    has the period 10, which is not 11. *)
Theorem keep_alive_period_default (self : Inverter) :
  keep_alive_period (KeepAliveInverter_init self None) = 10%Q /\
  ~ (keep_alive_period (KeepAliveInverter_init self None) == 11)%Q.
Proof.
  split; [reflexivity|]. cbn. unfold Qeq. cbn. discriminate.
Qed.

(** * Further properties of the code *)

(** ** Framing codec *)

Lemma byte_val_div_mod (n : Z) :
  0 <= n < 65536 ->
  byte_val (byte_of_Z (n / 256)) = n / 256 /\
  byte_val (byte_of_Z (n mod 256)) = n mod 256.
Proof.
  intros Hn. split; apply byte_val_of_Z.
  - split; [apply Z.div_pos; lia | apply Z.div_lt_upper_bound; lia].
  - apply Z.mod_pos_bound. lia.
Qed.

(** X1: a frame that [construct_message] returns is the start marker
    [55 aa], the identifier, the payload length in two big-endian bytes, the
    payload, and two bytes that hold, big-endian, the sum of all the bytes
    before them; it is six bytes longer than identifier and payload
    together. *)
Theorem construct_message_frame (identifier payload frame : bytes) :
  construct_message identifier payload = Ok frame ->
  exists s1 s2 c1 c2,
    frame = [x55; xaa] ++ identifier ++ [s1; s2] ++ payload ++ [c1; c2] /\
    byte_val s1 * 256 + byte_val s2 = Z.of_nat (length payload) /\
    byte_val c1 * 256 + byte_val c2
    = sum ([x55; xaa] ++ identifier ++ [s1; s2] ++ payload) /\
    length frame = (length identifier + length payload + 6)%nat.
Proof.
  intros H.
  apply construct_message_inv in H as (payload_size & checksum & -> & Hs & Hc).
  pose proof (from_to_bytes2 _ _ Hs) as [Hsv Hsl].
  pose proof (from_to_bytes2 _ _ Hc) as [Hcv Hcl].
  destruct payload_size as [|s1 [|s2 [|? ?]]]; try discriminate.
  destruct checksum as [|c1 [|c2 [|? ?]]]; try discriminate.
  exists s1, s2, c1, c2. rewrite from_bytes_two in Hsv, Hcv.
  split; [now rewrite <- !app_assoc|]. split; [exact Hsv|]. split; [exact Hcv|].
  rewrite !length_app. cbn [length]. lia.
Qed.

Lemma construct_message_frame_status_request :
  exists s1 s2 c1 c2,
    [x55; xaa; x01; x02; x02; x00; x00; x01; x04]
    = [x55; xaa] ++ [x01; x02; x02] ++ [s1; s2] ++ [] ++ [c1; c2] /\
    byte_val s1 * 256 + byte_val s2 = Z.of_nat (length (@nil byte)) /\
    byte_val c1 * 256 + byte_val c2
    = sum ([x55; xaa] ++ [x01; x02; x02] ++ [s1; s2] ++ []) /\
    length [x55; xaa; x01; x02; x02; x00; x00; x01; x04]
    = (length [x01; x02; x02] + length (@nil byte) + 6)%nat.
Proof.
  apply (construct_message_frame [x01; x02; x02] []). reflexivity.
Defined.

(** X2: [construct_message] returns a frame exactly when the payload is
    shorter than 65536 bytes and the bytes before the checksum (255 for the
    start marker, the identifier, the two length bytes, the payload) add up
    to less than 65536; in every other case it raises [OverflowError]. *)
Theorem construct_message_returns_iff (identifier payload : bytes) :
  let n := Z.of_nat (length payload) in
  let total := 255 + sum identifier + n / 256 + n mod 256 + sum payload in
  ((exists frame, construct_message identifier payload = Ok frame)
   <-> n < 65536 /\ total < 65536) /\
  (~ (n < 65536 /\ total < 65536) ->
   construct_message identifier payload = Raise OverflowError).
Proof.
  intros n total.
  assert (Hsum : n < 65536 ->
            sum ([x55; xaa] ++ identifier
                 ++ [byte_of_Z (n / 256); byte_of_Z (n mod 256)] ++ payload)
            = total).
  { intros Hn. rewrite !sum_app.
    destruct (byte_val_div_mod n) as [E1 E2]; [subst n; lia|].
    rewrite !sum_cons, E1, E2. subst total.
    change (sum []) with 0. change (byte_val x55) with 85.
    change (byte_val xaa) with 170. lia. }
  assert (Hraise : ~ (n < 65536 /\ total < 65536) ->
            construct_message identifier payload = Raise OverflowError).
  { intros Hnot. destruct (Z_lt_le_dec n 65536) as [Hn|Hn].
    - apply construct_message_overflow; [exact Hn|]. fold n. rewrite (Hsum Hn). lia.
    - unfold construct_message. fold n. now rewrite to_bytes2_Raise by exact Hn. }
  split; [split|exact Hraise].
  - intros [frame Hf].
    destruct (Z_lt_le_dec n 65536) as [Hn|Hn];
      [destruct (Z_lt_le_dec total 65536) as [Ht|Ht]; [auto|]|];
      rewrite Hraise in Hf by lia; discriminate.
  - intros [Hn Ht]. apply construct_message_returns; [exact Hn|].
    fold n. now rewrite (Hsum Hn).
Qed.

(** Reading a frame that is followed by other bytes. *)
Lemma read_message_app (identifier payload frame rest : bytes) :
  length identifier = 3%nat ->
  (length payload <= 4096)%nat ->
  construct_message identifier payload = Ok frame ->
  read_message (frame ++ rest) = (Ok (identifier, payload), rest).
Proof.
  intros Hid Hlen H.
  apply construct_message_inv in H as (payload_size & checksum & -> & Hs & Hc).
  destruct identifier as [|a [|b [|c [|? ?]]]]; try discriminate.
  pose proof (from_to_bytes2 _ _ Hs) as [Hv Hl].
  pose proof (from_to_bytes2 _ _ Hc) as [_ Hcl].
  destruct payload_size as [|s1 [|s2 [|? ?]]]; try discriminate.
  destruct checksum as [|c1 [|c2 [|? ?]]]; try discriminate.
  unfold read_message, read. cbn [app firstn skipn].
  rewrite Hv.
  replace (Z.of_nat (length payload) <? 0) with false
    by (symmetry; apply Z.ltb_ge; lia).
  replace (4096 <? Z.of_nat (length payload)) with false
    by (symmetry; apply Z.ltb_ge; lia).
  cbn [orb]. rewrite Nat2Z.id, <- !app_assoc.
  rewrite firstn_app, Nat.sub_diag, firstn_all. cbn [firstn].
  rewrite skipn_app, Nat.sub_diag, skipn_all. cbn [skipn app].
  now rewrite app_nil_r.
Qed.

(** X3: on a stream that starts with a frame [construct_message] returned
    for an identifier of three bytes and a payload of at most 4096 bytes,
    [read_message] returns that identifier and payload and leaves exactly
    the bytes after the frame, so frames sent one after the other are read
    one after the other. *)
Theorem read_message_frame_then_rest (identifier payload frame rest : bytes) :
  length identifier = 3%nat ->
  (length payload <= 4096)%nat ->
  construct_message identifier payload = Ok frame ->
  read_message (frame ++ rest) = (Ok (identifier, payload), rest).
Proof. apply read_message_app. Qed.

Lemma read_message_two_frames :
  read_message ([x55; xaa; x01; x80; x00; x00; x01; x0c; x01; x8d]
                ++ [x55; xaa; x01; x82; x00; x00; x00; x01; x82])
  = (Ok ([x01; x80; x00], [x0c]),
     [x55; xaa; x01; x82; x00; x00; x00; x01; x82]).
Proof.
  apply (read_message_frame_then_rest [x01; x80; x00] [x0c]).
  - reflexivity.
  - simpl. lia.
  - reflexivity.
Defined.

(** [read_message] in terms of the stream alone: the size is bytes 5 and
    6, the identifier bytes 2 to 4, the payload starts at byte 7. *)
Lemma read_message_eq (stream : bytes) :
  read_message stream
  = let size := from_bytes false (firstn 2 (skipn 5 stream)) in
    if 4096 <? size then (Raise ValueError, skipn 7 stream)
    else (Ok (firstn 3 (skipn 2 stream), firstn (Z.to_nat size) (skipn 7 stream)),
          skipn (Z.to_nat size + 9) stream).
Proof.
  unfold read_message, read. rewrite !skipn_skipn. cbn [Nat.add]. cbv zeta.
  pose proof (from_bytes_unsigned_nonneg (firstn 2 (skipn 5 stream))) as Hnn.
  replace (_ <? 0) with false by (symmetry; apply Z.ltb_ge; exact Hnn).
  cbn [orb]. destruct (4096 <? _); [reflexivity|].
  do 3 f_equal. lia.
Qed.

(** X4: the only exception of [read_message] is the [ValueError] for a
    length field above 4096, raised when exactly the seven header bytes
    have been consumed; for every other stream, however short or malformed,
    it returns bytes 2 to 4 as the identifier and the bytes from 7 on, as
    many as the length field says, as the payload, and consumes the length
    field's value plus nine bytes. *)
Theorem read_message_outcomes (stream : bytes) :
  let size := from_bytes false (firstn 2 (skipn 5 stream)) in
  (4096 < size -> read_message stream = (Raise ValueError, skipn 7 stream)) /\
  (size <= 4096 ->
   read_message stream
   = (Ok (firstn 3 (skipn 2 stream), firstn (Z.to_nat size) (skipn 7 stream)),
      skipn (Z.to_nat size + 9) stream)).
Proof.
  intros size. rewrite read_message_eq. fold size. cbv zeta. split; intros H.
  - apply Z.ltb_lt in H. now rewrite H.
  - apply Z.ltb_ge in H. now rewrite H.
Qed.

(** X5: a message [read_message] returns has an identifier of at most 3
    bytes and a payload of at most 4096 bytes, and what is left of the
    stream is the stream without a prefix of at most 4105 bytes. *)
Theorem read_message_bounds (stream identifier payload rest : bytes) :
  read_message stream = (Ok (identifier, payload), rest) ->
  (length identifier <= 3)%nat /\
  (length payload <= 4096)%nat /\
  exists consumed,
    stream = consumed ++ rest /\ (length consumed <= 4105)%nat.
Proof.
  rewrite read_message_eq. cbv zeta.
  set (size := from_bytes false (firstn 2 (skipn 5 stream))).
  destruct (Z.ltb_spec 4096 size) as [H|H]; [discriminate|].
  intros Heq.
  assert (Hid : identifier = firstn 3 (skipn 2 stream)) by congruence.
  assert (Hp : payload = firstn (Z.to_nat size) (skipn 7 stream)) by congruence.
  assert (Hrest : rest = skipn (Z.to_nat size + 9) stream) by congruence.
  clear Heq. subst identifier payload rest.
  split; [apply firstn_le_length|].
  split; [etransitivity; [apply firstn_le_length | lia]|].
  exists (firstn (Z.to_nat size + 9) stream).
  split; [symmetry; apply firstn_skipn|].
  etransitivity; [apply firstn_le_length | lia].
Qed.

Lemma read_message_bounds_truncated :
  (length [x01; x82] <= 3)%nat /\
  (length (@nil byte) <= 4096)%nat /\
  exists consumed,
    [x55; xaa; x01; x82] = consumed ++ [] /\ (length consumed <= 4105)%nat.
Proof.
  apply (read_message_bounds [x55; xaa; x01; x82] [x01; x82] [] []).
  reflexivity.
Defined.

(** ** Integers of the slots *)

Lemma from_bytes_unsigned_acc (bs : bytes) (acc : Z) :
  fold_left (fun a b => a * 256 + byte_val b) bs acc
  = acc * 256 ^ Z.of_nat (length bs) + from_bytes_unsigned bs.
Proof.
  unfold from_bytes_unsigned. revert acc.
  induction bs as [|b bs IH]; intros acc.
  - cbn [fold_left length]. change (256 ^ Z.of_nat 0) with 1. lia.
  - cbn [fold_left length]. rewrite IH, (IH (0 * 256 + byte_val b)).
    rewrite Nat2Z.inj_succ, Z.pow_succ_r by lia. lia.
Qed.

Lemma from_bytes_unsigned_range (bs : bytes) :
  0 <= from_bytes_unsigned bs < 256 ^ Z.of_nat (length bs).
Proof.
  induction bs as [|b bs IH].
  - unfold from_bytes_unsigned. cbn. lia.
  - unfold from_bytes_unsigned. cbn [fold_left length].
    rewrite from_bytes_unsigned_acc, Nat2Z.inj_succ, Z.pow_succ_r by lia.
    pose proof (byte_val_range b). nia.
Qed.

(** The integer of [w] bytes: below 256^w when unsigned, within half of
    that on either side of 0 when signed. *)
Lemma from_bytes_range (signed : bool) (bs : bytes) :
  let m := 256 ^ Z.of_nat (length bs) in
  if signed then - (m / 2) <= from_bytes true bs <= (m - 1) / 2
  else 0 <= from_bytes false bs < m.
Proof.
  cbv zeta. pose proof (from_bytes_unsigned_range bs) as Hr.
  destruct signed; [|exact Hr].
  unfold from_bytes. cbn [andb].
  destruct bs as [|b bs]; [cbn; lia|].
  set (u := from_bytes_unsigned (b :: bs)) in *.
  set (len := Z.of_nat (length (b :: bs))) in *.
  assert (Hlen : 1 <= len) by (subst len; cbn [length]; lia).
  assert (E256 : 256 ^ len = 2 ^ (8 * len)) by (rewrite Z.pow_mul_r by lia; reflexivity).
  assert (Ehalf : 2 ^ (8 * len) = 2 * 2 ^ (8 * len - 1)).
  { rewrite <- Z.pow_succ_r by lia. f_equal. lia. }
  assert (Hpos : 0 < 2 ^ (8 * len - 1)) by (apply Z.pow_pos_nonneg; lia).
  replace (0 <? 8 * len) with true by (symmetry; apply Z.ltb_lt; lia).
  rewrite E256, Ehalf in *. set (h := 2 ^ (8 * len - 1)) in *.
  replace (2 * h / 2) with h
    by (symmetry; rewrite Z.mul_comm; apply Z.div_mul; lia).
  replace ((2 * h - 1) / 2) with (h - 1)
    by (apply (Z.div_unique (2 * h - 1) 2 (h - 1) 1); lia).
  destruct (Z.leb_spec h u); cbn [andb]; lia.
Qed.

(** ** Status schema *)

(** A value of [BytesStatusType.get_value] means that every type id was
    found, and it is the slots in the declared order. *)
Lemma Bytes_get_value_Some_inv (type_ids : list byte)
  (status_format status_payload v : bytes) :
  Bytes_get_value type_ids status_format status_payload = Some v ->
  (forall type_id, In type_id type_ids -> In type_id status_format) /\
  v = concat (map (fun type_id =>
                     slice status_payload (find status_format type_id * 2)
                                          (find status_format type_id * 2 + 2))
                  type_ids).
Proof.
  intros H.
  assert (Hall : forall type_id, In type_id type_ids -> In type_id status_format).
  { intros t Hin.
    destruct (in_dec Byte.byte_eq_dec t status_format) as [Hf|Hf]; [exact Hf|].
    assert (E : Bytes_get_value type_ids status_format status_payload = None)
      by (apply Bytes_get_value_None; eauto).
    congruence. }
  split; [exact Hall|].
  rewrite (Bytes_get_value_Some _ _ status_payload Hall) in H. congruence.
Qed.

Lemma slice_found_length (status_format status_payload : bytes) (type_id : byte) :
  In type_id status_format ->
  let s := slice status_payload (find status_format type_id * 2)
                                (find status_format type_id * 2 + 2) in
  (length s <= 2)%nat /\
  (2 * Z.of_nat (length status_format) <= Z.of_nat (length status_payload) ->
   length s = 2%nat).
Proof.
  intros Hin s. subst s. apply find_In in Hin.
  pose proof (find_range status_format type_id) as [E|Hr]; [contradiction|].
  rewrite slice_slot by lia. split; [apply firstn_le_length|].
  intros Hlen. rewrite length_firstn, length_skipn. lia.
Qed.

(** The length of the slots of type ids that are all in the format. *)
Lemma slots_length (type_ids : list byte) (status_format status_payload : bytes) :
  (forall type_id, In type_id type_ids -> In type_id status_format) ->
  let slots :=
    concat (map (fun type_id =>
                   slice status_payload (find status_format type_id * 2)
                                        (find status_format type_id * 2 + 2))
                type_ids) in
  (length slots <= 2 * length type_ids)%nat /\
  (2 * Z.of_nat (length status_format) <= Z.of_nat (length status_payload) ->
   length slots = (2 * length type_ids)%nat).
Proof.
  intros Hall. cbv zeta.
  induction type_ids as [|t ids IH]; [cbn; auto|].
  cbn [map concat length]. rewrite length_app.
  destruct (slice_found_length status_format status_payload t) as [H1 H2];
    [apply Hall; now left|].
  destruct IH as [IH1 IH2]; [intros; apply Hall; now right|].
  split; [lia|]. intros Hlen. rewrite (H2 Hlen), (IH2 Hlen). lia.
Qed.

(** X7: the bytes a [BytesStatusType] returns are at most two for each
    of its type ids, and exactly two for each when the payload is at least
    twice as long as the format. *)
Theorem Bytes_get_value_length (type_ids : list byte)
  (status_format status_payload v : bytes) :
  Bytes_get_value type_ids status_format status_payload = Some v ->
  (length v <= 2 * length type_ids)%nat /\
  (2 * Z.of_nat (length status_format) <= Z.of_nat (length status_payload) ->
   length v = (2 * length type_ids)%nat).
Proof.
  intros H. apply Bytes_get_value_Some_inv in H as [Hall ->].
  apply slots_length, Hall.
Qed.

Lemma Bytes_get_value_length_short_payload :
  (length [x12; x00; x00] <= 2 * length [x0a; x09])%nat /\
  (2 * Z.of_nat (length [x09; x0a]) <= Z.of_nat (length [x00; x00; x12]) ->
   length [x12; x00; x00] = (2 * length [x0a; x09])%nat).
Proof.
  apply (Bytes_get_value_length [x0a; x09] [x09; x0a] [x00; x00; x12]).
  reflexivity.
Defined.

(** X6: the integer of an [IntStatusType] with [n] type ids lies below
    256^(2n) when it is unsigned, and between -(256^(2n))/2 and
    (256^(2n) - 1)/2 when it is signed: from 0 to 65535, or from -32768 to
    32767, for the fields of one slot. *)
Theorem Int_get_value_range (type_ids : list byte) (signed : bool)
  (status_format status_payload : bytes) (v : Z) :
  Int_get_value type_ids signed status_format status_payload = Some v ->
  let m := 256 ^ Z.of_nat (2 * length type_ids) in
  if signed then - (m / 2) <= v <= (m - 1) / 2 else 0 <= v < m.
Proof.
  unfold Int_get_value.
  destruct (Bytes_get_value type_ids status_format status_payload) as [sequence|]
    eqn:E; [|discriminate].
  intros Hv. cbv zeta. set (m := 256 ^ Z.of_nat (2 * length type_ids)).
  injection Hv as <-.
  apply Bytes_get_value_Some_inv in E as [Hall ->].
  destruct (slots_length _ _ status_payload Hall) as [Hlen _].
  cbv zeta in Hlen.
  set (sequence := concat _) in *.
  assert (Hm : 0 < 256 ^ Z.of_nat (length sequence) <= m).
  { split; [apply Z.pow_pos_nonneg; lia|].
    subst m. apply Z.pow_le_mono_r; lia. }
  pose proof (from_bytes_range signed sequence) as Hr. cbv zeta in Hr.
  destruct signed; [|lia].
  assert (H1 : 256 ^ Z.of_nat (length sequence) / 2 <= m / 2)
    by (apply Z.div_le_mono; lia).
  assert (H2 : (256 ^ Z.of_nat (length sequence) - 1) / 2 <= (m - 1) / 2)
    by (apply Z.div_le_mono; lia).
  lia.
Qed.

Lemma Int_get_value_range_temperature :
  - (65536 / 2) <= -2 <= (65536 - 1) / 2.
Proof.
  apply (Int_get_value_range [x00] true [x00] [xff; xfe] (-2)). reflexivity.
Defined.

(** X8: [BytesStatusType] and [IntStatusType], and [DecimalStatusType]
    with at most five type ids and a scale from -1000026 to 999972 (where
    [scaleb] neither rounds nor reaches a limit of the decimal context, as
    for every field of the registry), never raise, and their value is
    [None] exactly when one of the type ids does not occur in the format. *)
Theorem leaf_None_iff (type_ids : list byte) (status_format status_payload : bytes) :
  let missing := exists type_id, In type_id type_ids /\ ~ In type_id status_format in
  (get_value (BytesStatusType type_ids) status_format status_payload = Ok None
   <-> missing) /\
  (forall signed,
     get_value (IntStatusType type_ids signed) status_format status_payload = Ok None
     <-> missing) /\
  (forall scale signed,
     Decimal_exact type_ids scale = true ->
     (get_value (DecimalStatusType type_ids scale signed) status_format status_payload
      = Ok None <-> missing)) /\
  (forall t e,
     t = BytesStatusType type_ids \/
     (exists signed, t = IntStatusType type_ids signed) \/
     (exists scale signed,
        Decimal_exact type_ids scale = true /\
        t = DecimalStatusType type_ids scale signed) ->
     get_value t status_format status_payload <> Raise e).
Proof.
  intros missing. subst missing.
  pose proof (Bytes_get_value_None type_ids status_format status_payload) as HN.
  cbn [get_value]. unfold Decimal_get_value, Int_get_value.
  destruct (Bytes_get_value type_ids status_format status_payload) as [v|];
    cbn [option_map].
  - split; [split; [discriminate | intros H; apply HN in H; discriminate]|].
    split; [intros signed; split;
            [discriminate | intros H; apply HN in H; discriminate]|].
    split; [intros scale signed _; split;
            [discriminate | intros H; apply HN in H; discriminate]|].
    intros t e [->|[[sg ->]|[sc [sg [_ ->]]]]]; discriminate.
  - split; [split; [intros _; apply HN; reflexivity | reflexivity]|].
    split; [intros signed; split; [intros _; apply HN; reflexivity | reflexivity]|].
    split; [intros scale signed _; split;
            [intros _; apply HN; reflexivity | reflexivity]|].
    intros t e [->|[[sg ->]|[sc [sg [_ ->]]]]]; cbn [get_value];
      unfold Decimal_get_value, Int_get_value; discriminate.
Qed.

(** The voltage of the first string, with and without its type id. *)
Lemma leaf_None_iff_pv1_voltage :
  get_value (DecimalStatusType [x01] (-1) false) [x0c; x02] [x00; x01; x09; x24]
  = Ok None.
Proof.
  apply (leaf_None_iff [x01] [x0c; x02] [x00; x01; x09; x24]).
  - reflexivity.
  - exists x01. split; [now left|]. cbn [In]. intros [H|[H|[]]]; discriminate.
Defined.

(** The loop of [OneOfStatusType.get_value] over the alternatives. *)
Lemma OneOf_cons (t : StatusType) (ts : list StatusType)
  (status_format status_payload : bytes) :
  get_value (OneOfStatusType (t :: ts)) status_format status_payload
  = rbind (get_value t status_format status_payload) (fun val =>
      if is_not_None val then Ok val
      else get_value (OneOfStatusType ts) status_format status_payload).
Proof. reflexivity. Qed.

Lemma OneOf_skip (before rest : list StatusType) (status_format status_payload : bytes) :
  (forall u, In u before -> get_value u status_format status_payload = Ok None) ->
  get_value (OneOfStatusType (before ++ rest)) status_format status_payload
  = get_value (OneOfStatusType rest) status_format status_payload.
Proof.
  induction before as [|u before IH]; intros H; [reflexivity|].
  cbn [app]. rewrite OneOf_cons, (H u) by now left. cbn [rbind is_not_None].
  apply IH. intros; apply H; now right.
Qed.

(** X9: [OneOfStatusType] gives what the first alternative that is not
    [None] gives, be it a value or an exception; alternatives after it are
    not consulted. *)
Theorem OneOf_first (before after : list StatusType) (t : StatusType)
  (status_format status_payload : bytes) :
  (forall u, In u before -> get_value u status_format status_payload = Ok None) ->
  get_value t status_format status_payload <> Ok None ->
  get_value (OneOfStatusType (before ++ t :: after)) status_format status_payload
  = get_value t status_format status_payload.
Proof.
  intros Hb Ht. rewrite (OneOf_skip _ _ _ _ Hb), OneOf_cons.
  destruct (get_value t status_format status_payload) as [[v|]|e];
    [reflexivity | contradiction | reflexivity].
Qed.

(** The format [01 34]: [output_power] comes from the second type id. *)
Lemma OneOf_first_output_power :
  field_value "output_power" [x01; x34] [x00; x00; x00; xc8]
  = Ok (Some (VDecimal (mkDecimal 200 0))).
Proof.
  change (field_value "output_power" [x01; x34] [x00; x00; x00; xc8])
    with (get_value (OneOfStatusType ([DecimalStatusType [x0b] 0 false]
                                      ++ DecimalStatusType [x34] 0 false :: []))
                    [x01; x34] [x00; x00; x00; xc8]).
  rewrite (OneOf_first [DecimalStatusType [x0b] 0 false] []
             (DecimalStatusType [x34] 0 false)).
  - reflexivity.
  - intros u [<-|[]]. reflexivity.
  - discriminate.
Defined.

(** X10: when every alternative is [None], so is the
    [OneOfStatusType]. *)
Theorem OneOf_None (status_types : list StatusType) (status_format status_payload : bytes) :
  (forall u, In u status_types -> get_value u status_format status_payload = Ok None) ->
  get_value (OneOfStatusType status_types) status_format status_payload = Ok None.
Proof.
  intros H. rewrite <- (app_nil_r status_types). now rewrite (OneOf_skip _ _ _ _ H).
Qed.

Lemma OneOf_None_energy_total :
  field_value "energy_total" [x07; x35] [x00; x01; x00; x02] = Ok None.
Proof.
  apply (OneOf_None [DecimalStatusType [x07; x08] (-1) false;
                     DecimalStatusType [x35; x36] (-1) false]).
  intros u [<-|[<-|[]]]; reflexivity.
Defined.

(** X11: two [IfPresentStatusType] on the same gate id, one for its
    presence and one for its absence, are never both a value: of
    [grid_voltage] and [grid_voltage_r_phase], of [grid_current] and
    [grid_current_r_phase], of [grid_frequency] and
    [grid_frequency_r_phase], at least one is [None]. *)
Theorem gated_exclusive (status_format status_payload : bytes) :
  (forall type_id t t',
     get_value (IfPresentStatusType type_id true t) status_format status_payload
       = Ok None \/
     get_value (IfPresentStatusType type_id false t') status_format status_payload
       = Ok None) /\
  (field_value "grid_voltage" status_format status_payload = Ok None \/
   field_value "grid_voltage_r_phase" status_format status_payload = Ok None) /\
  (field_value "grid_current" status_format status_payload = Ok None \/
   field_value "grid_current_r_phase" status_format status_payload = Ok None) /\
  (field_value "grid_frequency" status_format status_payload = Ok None \/
   field_value "grid_frequency_r_phase" status_format status_payload = Ok None).
Proof.
  assert (G : forall type_id t t',
     get_value (IfPresentStatusType type_id true t) status_format status_payload
       = Ok None \/
     get_value (IfPresentStatusType type_id false t') status_format status_payload
       = Ok None).
  { intros type_id t t'. rewrite !IfPresent_get_value.
    destruct (find status_format type_id =? -1); cbn; auto. }
  split; [exact G|].
  repeat split; registry_field; destruct (G x51
      (DecimalStatusType [x32] (-1) false) (DecimalStatusType [x32] (-1) false));
    destruct (G x51
      (DecimalStatusType [x31] (-1) false) (DecimalStatusType [x31] (-1) false));
    destruct (G x51
      (DecimalStatusType [x33] (-2) false) (DecimalStatusType [x33] (-2) false));
    auto.
Qed.

(** [BytesStatusType.get_value] on two payloads with the same slots. *)
Lemma Bytes_get_value_ext (type_ids : list byte) (status_format p1 p2 : bytes) :
  (forall type_id, In type_id type_ids -> In type_id status_format ->
     slice p1 (find status_format type_id * 2) (find status_format type_id * 2 + 2)
     = slice p2 (find status_format type_id * 2) (find status_format type_id * 2 + 2)) ->
  Bytes_get_value type_ids status_format p1 = Bytes_get_value type_ids status_format p2.
Proof.
  intros H. unfold Bytes_get_value, indices_of.
  destruct (existsb _ _) eqn:E; [reflexivity|].
  f_equal. f_equal. rewrite !map_map. apply map_ext_in. intros type_id Hin.
  apply H; [exact Hin|]. apply find_In. intros E1.
  rewrite <- not_true_iff_false in E. apply E.
  apply existsb_minus_one, in_map_iff. eauto.
Qed.

Lemma slice_firstn (status_format status_payload : bytes) (type_id : byte) :
  In type_id status_format ->
  slice (firstn (2 * length status_format) status_payload)
        (find status_format type_id * 2) (find status_format type_id * 2 + 2)
  = slice status_payload
          (find status_format type_id * 2) (find status_format type_id * 2 + 2).
Proof.
  intros Hin. apply find_In in Hin.
  pose proof (find_range status_format type_id) as [E|Hr]; [contradiction|].
  rewrite !slice_slot by lia.
  rewrite skipn_firstn_comm, firstn_firstn. f_equal. lia.
Qed.

(** X12: the payload enters the value of a status type, whatever its
    class, only through the two-byte slots of the type ids it may read and
    that the format has: two payloads that agree on these slots decode
    alike. In particular the payload bytes from index [2 * len(format)] on
    are never looked at. *)
Theorem get_value_reads_slots_only (t : StatusType) (status_format : bytes) :
  (forall p1 p2,
     (forall type_id, In type_id (slot_ids t) -> In type_id status_format ->
        slice p1 (find status_format type_id * 2) (find status_format type_id * 2 + 2)
        = slice p2 (find status_format type_id * 2)
                   (find status_format type_id * 2 + 2)) ->
     get_value t status_format p1 = get_value t status_format p2) /\
  (forall status_payload,
     get_value t status_format (firstn (2 * length status_format) status_payload)
     = get_value t status_format status_payload).
Proof.
  assert (Hext : forall p1 p2,
     (forall type_id, In type_id (slot_ids t) -> In type_id status_format ->
        slice p1 (find status_format type_id * 2) (find status_format type_id * 2 + 2)
        = slice p2 (find status_format type_id * 2)
                   (find status_format type_id * 2 + 2)) ->
     get_value t status_format p1 = get_value t status_format p2).
  { intros p1 p2.
    induction t as [ids|ids signed|ids scale signed| |ts IH|type_id presence t IH]
      using StatusType_induction; cbn [slot_ids]; intros H.
    - cbn [get_value]. now rewrite (Bytes_get_value_ext _ _ _ _ H).
    - cbn [get_value]. unfold Int_get_value. now rewrite (Bytes_get_value_ext _ _ _ _ H).
    - cbn [get_value]. unfold Decimal_get_value, Int_get_value.
      now rewrite (Bytes_get_value_ext _ _ _ _ H).
    - cbn [get_value]. unfold OperationMode_get_value, Int_get_value.
      now rewrite (Bytes_get_value_ext _ _ _ _ H).
    - induction IH as [|t ts Ht _ IHts]; [reflexivity|].
      rewrite !OneOf_cons, Ht.
      + destruct (get_value t status_format p2) as [val|e]; cbn [rbind]; [|reflexivity].
        destruct (is_not_None val); [reflexivity|]. apply IHts.
        intros type_id Hin. apply H. cbn [flat_map]. apply in_or_app. now right.
      + intros type_id Hin. apply H. cbn [flat_map]. apply in_or_app. now left.
    - rewrite !IfPresent_get_value.
      destruct (Bool.eqb _ _); [apply IH; exact H | reflexivity]. }
  split; [exact Hext|].
  intros status_payload. apply Hext. intros type_id _ Hin.
  apply slice_firstn, Hin.
Qed.

(** A status type that has no operation mode inside returns. *)
Lemma get_value_returns (t : StatusType) (status_format status_payload : bytes) :
  reads_operation_mode t = false ->
  exists val, get_value t status_format status_payload = Ok val.
Proof.
  induction t as [ids|ids signed|ids scale signed| |ts IH|type_id presence t IH]
    using StatusType_induction; cbn [reads_operation_mode]; intros H;
    try (cbn [get_value]; eauto; fail).
  - discriminate.
  - induction IH as [|t ts Ht _ IHts]; [cbn; eauto|].
    cbn [existsb] in H. apply orb_false_iff in H as [H1 H2].
    rewrite OneOf_cons. destruct (Ht H1) as [val ->]. cbn [rbind].
    destruct (is_not_None val); [eauto | apply IHts, H2].
  - rewrite IfPresent_get_value. destruct (Bool.eqb _ _); [apply IH, H | eauto].
Qed.

(** X13: for a status type whose decimal parts have at most five type
    ids and a scale from -1000026 to 999972 (where [scaleb] neither rounds
    nor reaches a limit of the decimal context, as in the whole registry),
    the only exception of [get_value] is the [KeyError] of the operation
    mode table, for a key the table does not have, and only a status type
    with an operation mode inside raises it. *)
Theorem get_value_raises_KeyError (t : StatusType) (status_format status_payload : bytes)
  (e : exn) :
  decimals_exact t = true ->
  get_value t status_format status_payload = Raise e ->
  reads_operation_mode t = true /\
  exists key, e = KeyError key /\ operating_modes key = None.
Proof.
  intros _.
  induction t as [ids|ids signed|ids scale signed| |ts IH|type_id presence t IH]
    using StatusType_induction; cbn [reads_operation_mode];
    try (cbn [get_value]; discriminate).
  - cbn [get_value]. unfold OperationMode_get_value.
    destruct (operating_modes _) eqn:E; [discriminate|].
    intros [= <-]. eauto.
  - induction IH as [|t ts Ht _ IHts]; [cbn; discriminate|].
    rewrite OneOf_cons. cbn [existsb].
    destruct (get_value t status_format status_payload) as [val|e'] eqn:Et;
      cbn [rbind].
    + destruct (is_not_None val); [discriminate|].
      intros H. destruct (IHts H) as [H1 H2]. rewrite H1, orb_true_r. auto.
    + intros [= <-]. destruct (Ht eq_refl) as [H1 H2]. rewrite H1. auto.
  - rewrite IfPresent_get_value. destruct (Bool.eqb _ _); [exact IH | discriminate].
Qed.

Lemma get_value_raises_KeyError_mode_7 :
  reads_operation_mode OperationModeStatusType = true /\
  exists key, KeyError (Some 7) = KeyError key /\ operating_modes key = None.
Proof.
  apply (get_value_raises_KeyError OperationModeStatusType [x0c] [x00; x07]);
    reflexivity.
Defined.

(** ** The sample of [status] *)

Section StatusValues.

Variables status_format payload : bytes.

Lemma status_values_cons (name : string) (type_def : StatusType)
  (types : list (string * StatusType)) :
  status_values ((name, type_def) :: types) status_format payload
  = rbind (get_value type_def status_format payload) (fun val =>
    rbind (status_values types status_format payload) (fun more =>
    match val with
    | Some v => Ok ((name, v) :: more)
    | None => Ok more
    end)).
Proof. reflexivity. Qed.

(** When no status type raises, the pass over them returns the entries
    of those that are not [None], in order. *)
Lemma status_values_Ok (types : list (string * StatusType)) :
  (forall entry, In entry types ->
     exists val, get_value (snd entry) status_format payload = Ok val) ->
  status_values types status_format payload
  = Ok (sample_entries types status_format payload).
Proof.
  induction types as [|[name t] types IH]; intros H; [reflexivity|].
  rewrite status_values_cons, IH by (intros; apply H; now right).
  destruct (H (name, t)) as [val Hv]; [now left|]. cbn [snd] in Hv.
  unfold sample_entries. cbn [flat_map fst snd]. rewrite Hv. cbn [rbind].
  destruct val; reflexivity.
Qed.

(** When the pass returns, no status type raised. *)
Lemma status_values_Ok_inv (types : list (string * StatusType))
  (sample : list (string * Value)) :
  status_values types status_format payload = Ok sample ->
  forall entry, In entry types ->
    exists val, get_value (snd entry) status_format payload = Ok val.
Proof.
  revert sample. induction types as [|[name t] types IH]; intros sample H entry Hin;
    [contradiction|].
  rewrite status_values_cons in H.
  destruct (get_value t status_format payload) as [val|e] eqn:Et; [|discriminate].
  cbn [rbind] in H.
  destruct (status_values types status_format payload) as [more|e] eqn:Em;
    [|discriminate].
  destruct Hin as [<-|Hin]; [cbn [snd]; eauto|].
  apply (IH more eq_refl entry Hin).
Qed.

Lemma lookup_sample_entries_None (types : list (string * StatusType)) (name : string) :
  ~ In name (map fst types) ->
  lookup name (sample_entries types status_format payload) = None.
Proof.
  induction types as [|[k t] types IH]; intros Hnot; [reflexivity|].
  cbn [map fst In] in Hnot.
  assert (Ek : String.eqb k name = false) by (apply String.eqb_neq; tauto).
  unfold sample_entries. cbn [flat_map fst snd].
  fold (sample_entries types status_format payload).
  destruct (get_value t status_format payload) as [[v|]|e]; cbn [app lookup];
    rewrite ?Ek; apply IH; tauto.
Qed.

(** Looking a name up in the entries is decoding the status type of that
    name, when the names are distinct and nothing raises. *)
Lemma lookup_sample_entries (types : list (string * StatusType)) (name : string) :
  NoDup (map fst types) ->
  (forall entry, In entry types ->
     exists val, get_value (snd entry) status_format payload = Ok val) ->
  Ok (lookup name (sample_entries types status_format payload))
  = match lookup name types with
    | Some type_def => get_value type_def status_format payload
    | None => Ok None
    end.
Proof.
  induction types as [|[k t] types IH]; intros Hnd Hall; [reflexivity|].
  cbn [map fst] in Hnd. apply NoDup_cons_iff in Hnd as [Hk Hnd].
  destruct (Hall (k, t)) as [val Hv]; [now left|]. cbn [snd] in Hv.
  unfold sample_entries. cbn [flat_map fst snd lookup].
  fold (sample_entries types status_format payload). rewrite Hv.
  destruct (String.eqb_spec k name) as [<-|Hne].
  - destruct val as [v|]; cbn [app lookup].
    + now rewrite String.eqb_refl.
    + now rewrite (lookup_sample_entries_None types k Hk).
  - assert (Ek : String.eqb k name = false) by (apply String.eqb_neq; exact Hne).
    destruct val as [v|]; cbn [app lookup]; rewrite ?Ek;
      apply IH; try exact Hnd; intros; apply Hall; now right.
Qed.

End StatusValues.

(** The names of the registry are distinct, and only its first status
    type has the operation mode inside. *)
Lemma status_types_NoDup : NoDup (map fst status_types).
Proof.
  cbn [map fst status_types].
  repeat (apply NoDup_cons; [cbn [In]; intuition discriminate|]).
  apply NoDup_nil.
Qed.

Lemma status_types_tail_returns (status_format payload : bytes)
  (entry : string * StatusType) :
  In entry (tl status_types) ->
  exists val, get_value (snd entry) status_format payload = Ok val.
Proof.
  intros Hin. apply get_value_returns.
  assert (F : forallb (fun e : string * StatusType => negb (reads_operation_mode (snd e)))
                (tl status_types) = true) by reflexivity.
  rewrite forallb_forall in F. apply F in Hin. now apply negb_true_iff in Hin.
Qed.

(** X14: the pass of [status] over the registry raises exactly when
    decoding [operation_mode] raises, and then the same exception;
    otherwise it returns, for the fields whose value is not [None] and for
    no others, the name and the value, in the declared order of the
    registry. *)
Theorem status_values_registry (status_format payload : bytes) :
  status_values status_types status_format payload
  = match field_value "operation_mode" status_format payload with
    | Ok _ => Ok (sample_entries status_types status_format payload)
    | Raise e => Raise e
    end.
Proof.
  registry_field.
  change status_types
    with (("operation_mode"%string, OperationModeStatusType) :: tl status_types) at 1 2.
  rewrite status_values_cons.
  rewrite (status_values_Ok status_format payload (tl status_types))
    by apply status_types_tail_returns.
  unfold sample_entries at 2. cbn [flat_map fst snd].
  fold (sample_entries (tl status_types) status_format payload).
  destruct (get_value OperationModeStatusType status_format payload) as [[v|]|e];
    reflexivity.
Qed.

(** Subscripting a decoded sample. *)
Lemma sample_lookup (status_format payload : bytes)
  (sample : list (string * Value)) (name : string) :
  status_values status_types status_format payload = Ok sample ->
  field_value name status_format payload = Ok (lookup name sample).
Proof.
  intros H. pose proof (status_values_Ok_inv _ _ _ _ H) as Hall.
  rewrite (status_values_Ok _ _ _ Hall) in H.
  assert (E : sample = sample_entries status_types status_format payload)
    by congruence.
  rewrite E. unfold field_value. symmetry.
  apply lookup_sample_entries; [apply status_types_NoDup | exact Hall].
Qed.

(** X15: in a sample that [status] decoded, a name has the value that
    decoding the field of that name gives, and no entry when that is [None]
    or the name is not in the registry. *)
Theorem status_values_lookup_field (status_format payload : bytes)
  (sample : list (string * Value)) (name : string) :
  status_values status_types status_format payload = Ok sample ->
  field_value name status_format payload = Ok (lookup name sample).
Proof. apply sample_lookup. Qed.

Lemma status_values_lookup_field_absent :
  field_value "pv2_voltage" [x0c; x01] [x00; x01; x09; x24]
  = Ok (lookup "pv2_voltage"
          [("operation_mode", VStr "Normal");
           ("pv1_voltage", VDecimal (mkDecimal 2340 (-1)))]%string).
Proof.
  apply (status_values_lookup_field [x0c; x01] [x00; x01; x09; x24]).
  reflexivity.
Defined.

(** ** Requests *)

Section Resync.

Variables identifier payload expected_response_id message : bytes.
Hypothesis constructed : construct_message identifier payload = Ok message.

Lemma receive_frame (expected : bool) (response : bytes * bytes) (frame rest : bytes)
  (self : Inverter) :
  on_wire expected_response_id expected response frame ->
  sock_in self = frame ++ rest ->
  receive self
  = Some (Ok response,
          mkInverter (_status_format self) rest (sock_out self) (log self)).
Proof.
  intros (Hid & Hlen & Hc & _) Hin. unfold receive. rewrite Hin.
  rewrite (read_message_app _ _ _ rest Hid Hlen Hc).
  now destruct response.
Qed.

Lemma receive_until_expected (skipped : list (bytes * bytes)) (frames : list bytes)
  (response : bytes * bytes) (frame rest : bytes) :
  Forall2 (on_wire expected_response_id false) skipped frames ->
  on_wire expected_response_id true response frame ->
  forall (fuel : nat) (self : Inverter),
  (length skipped <= fuel)%nat ->
  sock_in self = concat frames ++ frame ++ rest ->
  bind receive (request_loop fuel identifier expected_response_id) self
  = Some (Ok response,
          mkInverter (_status_format self) rest (sock_out self)
            (log self
             ++ map (fun r => WarningUnexpectedResponse (fst r) identifier) skipped)).
Proof.
  intros Hskipped Hresp.
  induction Hskipped as [|r f skipped frames Hr _ IH]; intros fuel self Hfuel Hin.
  - cbn [concat app] in Hin. unfold bind.
    rewrite (receive_frame true response frame rest self Hresp Hin).
    destruct Hresp as (_ & _ & _ & Hs).
    destruct fuel; cbn [request_loop]; rewrite Hs; unfold ret; cbn [map];
      now rewrite app_nil_r.
  - cbn [concat] in Hin. rewrite <- app_assoc in Hin. unfold bind at 1.
    rewrite (receive_frame false r f _ self Hr Hin).
    destruct fuel as [|fuel]; [cbn in Hfuel; lia|].
    destruct Hr as (_ & _ & _ & Hs). cbn [request_loop]. rewrite Hs.
    unfold bind at 1. unfold logging at 1. cbn [_status_format sock_in sock_out log].
    rewrite IH; [|cbn [length] in Hfuel; lia|reflexivity].
    cbn [_status_format sock_in sock_out log map]. now rewrite <- app_assoc.
Qed.

(** X16: [request] writes its message, reads past every response whose
    identifier does not start with the expected one, logging a warning for
    each, and returns the first response that does, leaving the stream
    after it; fuel for as many further reads as responses are skipped is
    enough. *)
Theorem request_skips_unexpected (skipped : list (bytes * bytes)) (frames : list bytes)
  (response : bytes * bytes) (frame rest : bytes) (fuel : nat) (self : Inverter) :
  Forall2 (on_wire expected_response_id false) skipped frames ->
  on_wire expected_response_id true response frame ->
  (length skipped <= fuel)%nat ->
  sock_in self = concat frames ++ frame ++ rest ->
  request fuel identifier payload expected_response_id self
  = Some (Ok response,
          mkInverter (_status_format self) rest (sock_out self ++ message)
            (log self ++ DebugSending message
             :: map (fun r => WarningUnexpectedResponse (fst r) identifier) skipped)).
Proof.
  intros Hskipped Hresp Hfuel Hin. unfold request. unfold bind at 1.
  unfold send. rewrite constructed.
  rewrite (receive_until_expected skipped frames response frame rest Hskipped Hresp);
    [|exact Hfuel|exact Hin].
  cbn [_status_format sock_in sock_out log]. now rewrite <- app_assoc.
Qed.

Lemma request_loop_eof (fuel : nat) :
  expected_response_id <> [] ->
  forall self, sock_in self = [] ->
  request_loop fuel identifier expected_response_id ([], []) self = None.
Proof.
  intros Hne. destruct expected_response_id as [|b expected] eqn:E; [contradiction|].
  induction fuel as [|fuel IH]; intros self Hin; cbn [request_loop fst startswith];
    [reflexivity|].
  unfold bind, logging, receive. cbn [_status_format sock_in sock_out log].
  rewrite Hin. cbn. apply IH. reflexivity.
Qed.

(** X17: once [request] has written its message, when the stream is at
    its end (the peer sends nothing more and every read gives no bytes),
    the loop that waits for a response with a non-empty expected
    identifier does not end: each read gives the empty message, which is
    not the expected one, and the loop reads again; no amount of fuel makes
    it return or raise. *)
Theorem response_loop_never_ends_at_eof (fuel : nat) (self : Inverter) :
  expected_response_id <> [] ->
  sock_in self = [] ->
  (response <- receive ;;
   request_loop fuel identifier expected_response_id response) self = None.
Proof.
  intros Hne Hin. unfold bind, receive.
  cbn [_status_format sock_in sock_out log]. rewrite Hin. cbn.
  apply request_loop_eof; [exact Hne | reflexivity].
Qed.

End Resync.

(** A response [01 7f 00] before the expected [01 82 00]. *)
Lemma request_skips_unexpected_once :
  let self := mkInverter None
                ([x55; xaa; x01; x7f; x00; x00; x00; x01; x7f]
                 ++ [x55; xaa; x01; x82; x00; x00; x02; x00; x01; x01; x85] ++ [])
                [] [] in
  let sent := [x55; xaa; x01; x02; x02; x00; x00; x01; x04] in
  request 1 [x01; x02; x02] [] [x01; x82] self
  = Some (Ok ([x01; x82; x00], [x00; x01]),
          mkInverter None [] sent
            [DebugSending sent;
             WarningUnexpectedResponse [x01; x7f; x00] [x01; x02; x02]]).
Proof.
  cbv zeta.
  apply (request_skips_unexpected [x01; x02; x02] [] [x01; x82]
           [x55; xaa; x01; x02; x02; x00; x00; x01; x04] eq_refl
           [([x01; x7f; x00], @nil byte)]
           [[x55; xaa; x01; x7f; x00; x00; x00; x01; x7f]]
           ([x01; x82; x00], [x00; x01])
           [x55; xaa; x01; x82; x00; x00; x02; x00; x01; x01; x85] []).
  - constructor; [|constructor]. unfold on_wire. cbn [fst snd length].
    repeat split. lia.
  - unfold on_wire. cbn [fst snd length]. repeat split. lia.
  - cbn [length]. lia.
  - reflexivity.
Defined.

Lemma response_loop_never_ends_at_eof_status :
  (response <- receive ;; request_loop 1000 [x01; x02; x02] [x01; x82] response)
    (mkInverter (Some [x0c]) [] [x55; xaa; x01; x02; x02; x00; x00; x01; x04] [])
  = None.
Proof.
  apply (response_loop_never_ends_at_eof [x01; x02; x02] [x01; x82]).
  - discriminate.
  - reflexivity.
Defined.

(** ** The format cache *)

(** X18: a [status] call on a session without a cached format (none yet,
    or an empty one), when the peer answers with a format response and a
    status response, sends the format request [01 00 02] and then the
    status request [01 02 02], caches the payload of the format response
    and decodes the status payload against it. *)
Theorem status_first_call (fuel : nat) (self : Inverter)
  (format_response status_response : bytes * bytes) (fframe sframe rest : bytes) :
  truthy (_status_format self) = false ->
  on_wire [x01; x80] true format_response fframe ->
  on_wire [x01; x82] true status_response sframe ->
  sock_in self = fframe ++ sframe ++ rest ->
  exists self',
    status fuel self
    = Some (status_values status_types (snd format_response) (snd status_response),
            self') /\
    _status_format self' = Some (snd format_response) /\
    sock_in self' = rest /\
    sock_out self'
    = sock_out self ++ [x55; xaa; x01; x00; x02; x00; x00; x01; x02]
                    ++ [x55; xaa; x01; x02; x02; x00; x00; x01; x04].
Proof.
  intros Hcache (Hfid & Hflen & Hfc & Hfs) (Hsid & Hslen & Hsc & Hss) Hin.
  assert (Hf : status_format fuel self
               = Some (Ok (snd format_response),
                       mkInverter (_status_format self) (sframe ++ rest)
                         (sock_out self ++ [x55; xaa; x01; x00; x02; x00; x00; x01; x02])
                         (log self ++ [DebugSending
                            [x55; xaa; x01; x00; x02; x00; x00; x01; x02]]))).
  { unfold status_format, bind.
    rewrite (request_first_response [x01; x00; x02] [] [x01; x80]
               [x55; xaa; x01; x00; x02; x00; x00; x01; x02] eq_refl fuel self
               format_response (sframe ++ rest)); [reflexivity| |exact Hfs].
    rewrite Hin. destruct format_response as [fid f].
    apply (read_message_app fid f fframe _ Hfid Hflen Hfc). }
  unfold status. unfold bind at 1.
  rewrite (ensure_status_format_fetched fuel self _ _ Hcache Hf).
  cbn [sock_in sock_out log]. unfold bind at 1.
  rewrite (request_first_response [x01; x02; x02] [] [x01; x82]
             [x55; xaa; x01; x02; x02; x00; x00; x01; x04] eq_refl fuel _
             status_response rest); [| |exact Hss].
  - cbn [_status_format sock_in sock_out log]. unfold bind, logging, lift, ret.
    destruct (_ =? _); eexists; (split; [reflexivity|]);
      cbn [_status_format sock_in sock_out]; rewrite <- app_assoc; auto.
  - cbn [sock_in]. destruct status_response as [sid p].
    apply (read_message_app sid p sframe _ Hsid Hslen Hsc).
Qed.

Lemma status_first_call_one_phase :
  exists self',
    status 0 (mkInverter None
                ([x55; xaa; x01; x80; x00; x00; x02; x0c; x01; x01; x8f]
                 ++ [x55; xaa; x01; x82; x00; x00; x04; x00; x01; x09; x24; x01; xb4]
                 ++ []) [] [])
    = Some (status_values status_types [x0c; x01] [x00; x01; x09; x24], self') /\
    _status_format self' = Some [x0c; x01] /\
    sock_in self' = [] /\
    sock_out self'
    = [] ++ [x55; xaa; x01; x00; x02; x00; x00; x01; x02]
         ++ [x55; xaa; x01; x02; x02; x00; x00; x01; x04].
Proof.
  apply (status_first_call 0 (mkInverter None _ [] [])
           ([x01; x80; x00], [x0c; x01]) ([x01; x82; x00], [x00; x01; x09; x24])
           [x55; xaa; x01; x80; x00; x00; x02; x0c; x01; x01; x8f]
           [x55; xaa; x01; x82; x00; x00; x04; x00; x01; x09; x24; x01; xb4] []).
  - reflexivity.
  - unfold on_wire. cbn [fst snd length]. repeat split. lia.
  - unfold on_wire. cbn [fst snd length]. repeat split. lia.
  - reflexivity.
Defined.

(** A second [status] call, on the cached format [0c 01]. *)
Lemma status_cached_one_request_second_call :
  _status_format
    (mkInverter (Some [x0c; x01]) []
       [x55; xaa; x01; x02; x02; x00; x00; x01; x04]
       [DebugSending [x55; xaa; x01; x02; x02; x00; x00; x01; x04]])
  = Some [x0c; x01] /\
  sock_out
    (mkInverter (Some [x0c; x01]) []
       [x55; xaa; x01; x02; x02; x00; x00; x01; x04]
       [DebugSending [x55; xaa; x01; x02; x02; x00; x00; x01; x04]])
  = [] ++ [x55; xaa; x01; x02; x02; x00; x00; x01; x04].
Proof.
  apply (status_cached_one_request 0
           (mkInverter (Some [x0c; x01])
              [x55; xaa; x01; x82; x00; x00; x04; x00; x01; x09; x24; x01; xb4] [] [])
           _ [x0c; x01]
           (Ok [("operation_mode", VStr "Normal");
                ("pv1_voltage", VDecimal (mkDecimal 2340 (-1)))]%string)).
  - reflexivity.
  - discriminate.
  - reflexivity.
Defined.

(** Two timeouts, then the stop. *)
Lemma _ka_runner_requests_twice :
  sock_out
    (mkInverter None []
       ([x55; xaa; x01; x09; x02; x00; x00; x01; x0b]
        ++ [x55; xaa; x01; x09; x02; x00; x00; x01; x0b])
       [DebugSending [x55; xaa; x01; x09; x02; x00; x00; x01; x0b];
        DebugSending [x55; xaa; x01; x09; x02; x00; x00; x01; x0b]])
  = [] ++ concat (repeat [x55; xaa; x01; x09; x02; x00; x00; x01; x0b] 2).
Proof.
  apply (_ka_runner_requests 2 [false]
           (mkInverter None
              ([x55; xaa; x01; x89; x00; x00; x00; x01; x89]
               ++ [x55; xaa; x01; x89; x00; x00; x00; x01; x89]) [] [])).
  reflexivity.
Defined.

(** ** Discovery *)

(** The loop of [open_with_retries] from a state it can be in: [tries]
    failed calls so far, as many sleeps, and [listen_sock] not set. *)
Lemma open_with_retries_loop_run (retries : Z) (outcomes : list open_outcome) :
  forall (n : nat) (run : retry_run),
  (n = 0%nat \/ Z.of_nat n < retries) ->
  open_with_retries_loop retries (Z.of_nat n) n n false outcomes = Some run ->
  (n < opens run)%nat /\
  Z.of_nat (opens run) <= Z.max 1 retries /\
  S (sleeps run) = opens run /\
  (outcome run = Found tt <-> listening run = true) /\
  (listening run = false -> exists errno, outcome run = Failed (OSError errno)).
Proof.
  induction outcomes as [|o outcomes IH]; intros n run Hn; [discriminate|].
  cbn [open_with_retries_loop open].
  destruct o as [|errno].
  - intros [= <-]. cbn [opens sleeps outcome listening].
    repeat split; try lia; try discriminate.
  - destruct (negb (errno =? 98) && negb (errno =? 10048)).
    + intros [= <-]. cbn [opens sleeps outcome listening].
      repeat split; try lia; try discriminate; eauto.
    + destruct (Z.geb_spec (Z.of_nat n + 1) retries) as [Hge|Hlt].
      * intros [= <-]. cbn [opens sleeps outcome listening].
        repeat split; try lia; try discriminate; eauto.
      * replace (Z.of_nat n + 1) with (Z.of_nat (S n)) by lia.
        intros H. apply IH in H; [|right; lia].
        destruct H as (H1 & H2 & H3 & H4). repeat split; try lia; tauto.
Qed.

(** X21: when [open_with_retries] ends, it has called [open] at least
    once and at most [retries] times (once when [retries] is below 1), and
    it has slept once between two calls and not after the last. Called with
    [listen_sock] already set, it ends in the [RuntimeError] of its first
    [open] call and leaves [listen_sock] set. Called with [listen_sock] not
    set, it leaves [listen_sock] set exactly when it returns, and the
    exception it raises otherwise is an [OSError]. *)
Theorem open_with_retries_bounds (retries : Z) (listen_sock : bool)
  (outcomes : list open_outcome) (run : retry_run) :
  open_with_retries retries listen_sock outcomes = Some run ->
  (1 <= opens run)%nat /\
  Z.of_nat (opens run) <= Z.max 1 retries /\
  S (sleeps run) = opens run /\
  (listen_sock = true -> run = mkRetryRun (Failed RuntimeError_open) 1 0 true) /\
  (listen_sock = false ->
   (outcome run = Found tt <-> listening run = true) /\
   (listening run = false -> exists errno, outcome run = Failed (OSError errno))).
Proof.
  destruct listen_sock.
  - unfold open_with_retries. destruct outcomes as [|o outcomes]; [discriminate|].
    cbn [open_with_retries_loop open]. intros [= <-]. cbn [opens sleeps].
    repeat split; try lia; discriminate.
  - intros H. apply (open_with_retries_loop_run retries outcomes 0 run) in H;
      [|now left].
    destruct H as (H1 & H2 & H3 & H4 & H5).
    repeat split; try lia; try discriminate; try tauto.
Qed.

Lemma open_with_retries_bounds_third_try :
  (1 <= 3)%nat /\
  Z.of_nat 3 <= Z.max 1 10 /\
  S 2 = 3%nat /\
  (false = true ->
   mkRetryRun (Found tt) 3 2 true = mkRetryRun (Failed RuntimeError_open) 1 0 true) /\
  (false = false ->
   (Found tt = Found tt <-> true = true) /\
   (true = false -> exists errno, Found tt = Failed (OSError errno))).
Proof.
  apply (open_with_retries_bounds 10 false
           [OpenError 98; OpenError 10048; Listening]
           (mkRetryRun (Found tt) 3 2 true)).
  reflexivity.
Defined.

(** A second [open_with_retries] on a finder that is listening. *)
Lemma open_with_retries_bounds_already_open :
  open_with_retries 10 true [Listening]
  = Some (mkRetryRun (Failed RuntimeError_open) 1 0 true).
Proof. reflexivity. Qed.

(** The loop after [n] calls that found the port in use. *)
Lemma open_with_retries_loop_busy (retries : Z) (busy rest : list open_outcome) :
  Forall (fun o => o = OpenError 98 \/ o = OpenError 10048) busy ->
  forall n : nat,
  Z.of_nat (n + length busy) < Z.max 1 retries ->
  open_with_retries_loop retries (Z.of_nat n) n n false (busy ++ rest)
  = open_with_retries_loop retries (Z.of_nat (n + length busy))
      (n + length busy) (n + length busy) false rest.
Proof.
  induction 1 as [|o busy Ho _ IH]; intros n Hlt.
  - cbn [app length]. now rewrite Nat.add_0_r.
  - cbn [app length] in *. cbn [open_with_retries_loop open].
    assert (E : forall errno, errno = 98 \/ errno = 10048 ->
              negb (errno =? 98) && negb (errno =? 10048) = false)
      by (intros errno [->| ->]; reflexivity).
    assert (Hge : (Z.of_nat n + 1 >=? retries) = false).
    { destruct (Z.geb_spec (Z.of_nat n + 1) retries); [lia | reflexivity]. }
    replace (n + S (length busy))%nat with (S n + length busy)%nat in * by lia.
    destruct Ho as [-> | ->]; rewrite E by auto; rewrite Hge;
      replace (Z.of_nat n + 1) with (Z.of_nat (S n)) by lia;
      apply IH; exact Hlt.
Qed.

(** X22: as long as [open] finds the port in use (errno 98 or 10048) and
    fewer than [retries] calls have failed, [open_with_retries] sleeps and
    calls [open] again; the first call that ends otherwise decides: it
    returns when that call succeeds, and raises the [OSError] of that call
    at once when its errno is another one. The calls made are one more than
    the failed ones, the sleeps as many as these. *)
Theorem open_with_retries_after_busy (retries : Z) (busy rest : list open_outcome)
  (errno : Z) :
  Forall (fun o => o = OpenError 98 \/ o = OpenError 10048) busy ->
  Z.of_nat (length busy) < Z.max 1 retries ->
  errno <> 98 -> errno <> 10048 ->
  open_with_retries retries false (busy ++ Listening :: rest)
  = Some (mkRetryRun (Found tt) (S (length busy)) (length busy) true) /\
  open_with_retries retries false (busy ++ OpenError errno :: rest)
  = Some (mkRetryRun (Failed (OSError errno)) (S (length busy)) (length busy) false).
Proof.
  intros Hbusy Hlt H98 H10048. unfold open_with_retries.
  change 0 with (Z.of_nat 0).
  rewrite !(open_with_retries_loop_busy retries busy _ Hbusy 0) by exact Hlt.
  cbn [Nat.add open_with_retries_loop open].
  apply Z.eqb_neq in H98, H10048. rewrite H98, H10048. cbn [negb andb]. auto.
Qed.

Lemma open_with_retries_after_busy_twice :
  open_with_retries 10 false ([OpenError 98; OpenError 10048] ++ Listening :: [])
  = Some (mkRetryRun (Found tt) 3 2 true) /\
  open_with_retries 10 false ([OpenError 98; OpenError 10048] ++ OpenError 13 :: [])
  = Some (mkRetryRun (Failed (OSError 13)) 3 2 false).
Proof.
  apply (open_with_retries_after_busy 10 [OpenError 98; OpenError 10048] [] 13).
  - constructor; [now left|]. constructor; [now right|]. constructor.
  - cbn. lia.
  - discriminate.
  - discriminate.
Defined.

(** X23: when [open] finds the port in use on each of the first
    [retries] calls (on the first call, when [retries] is below 1),
    [open_with_retries] gives up there: it raises the [OSError] of the last
    of these calls, and has not slept after it. *)
Theorem open_with_retries_gives_up (retries : Z) (busy rest : list open_outcome)
  (last : Z) :
  Forall (fun o => o = OpenError 98 \/ o = OpenError 10048) busy ->
  Z.of_nat (S (length busy)) = Z.max 1 retries ->
  last = 98 \/ last = 10048 ->
  open_with_retries retries false (busy ++ OpenError last :: rest)
  = Some (mkRetryRun (Failed (OSError last)) (S (length busy)) (length busy) false).
Proof.
  intros Hbusy Hlen Hlast. unfold open_with_retries.
  change 0 with (Z.of_nat 0).
  rewrite (open_with_retries_loop_busy retries busy _ Hbusy 0) by (cbn [Nat.add]; lia).
  cbn [Nat.add open_with_retries_loop open].
  assert (E : negb (last =? 98) && negb (last =? 10048) = false)
    by (destruct Hlast as [->| ->]; reflexivity).
  rewrite E.
  destruct (Z.geb_spec (Z.of_nat (length busy) + 1) retries); [reflexivity | lia].
Qed.

Lemma open_with_retries_gives_up_no_retries :
  open_with_retries 0 false ([] ++ OpenError 98 :: [Listening])
  = Some (mkRetryRun (Failed (OSError 98)) 1 0 false).
Proof.
  apply (open_with_retries_gives_up 0 [] [Listening] 98).
  - constructor.
  - reflexivity.
  - now left.
Defined.

Lemma advertisement_constructed :
  construct_message [x00; x40; x02] (list_byte_of_string "I AM SERVER")
  = Ok advertisement.
Proof. reflexivity. Qed.

Section FindInverter.

Variable conn : Type.

Lemma find_inverter_loop_timeouts (message : bytes) (k : nat) :
  forall (n : nat) (sent : list bytes) (accepts : list (option conn)),
  find_inverter_loop (k + n) message sent (repeat None k ++ accepts)
  = find_inverter_loop n message (sent ++ repeat message k) accepts.
Proof.
  induction k as [|k IH]; intros n sent accepts.
  - cbn [repeat app Nat.add]. now rewrite app_nil_r.
  - cbn [repeat app Nat.add find_inverter_loop]. rewrite IH, <- app_assoc.
    reflexivity.
Qed.

(** X24: when every [accept] times out, [find_inverter] broadcasts the
    advertisement (the frame of [00 40 02] with the payload "I AM SERVER")
    once for each of the [advertisements] rounds and then raises
    [InverterNotFoundError]; for [advertisements] below 1 it broadcasts
    nothing and raises at once. *)
Theorem find_inverter_not_found (advertisements : Z) (rest : list (option conn)) :
  find_inverter advertisements (repeat None (Z.to_nat advertisements) ++ rest)
  = Some (Failed InverterNotFoundError,
          repeat advertisement (Z.to_nat advertisements)) /\
  (advertisements < 1 ->
   forall accepts : list (option conn),
     find_inverter advertisements accepts = Some (Failed InverterNotFoundError, [])).
Proof.
  unfold find_inverter. split.
  - rewrite <- (Nat.add_0_r (Z.to_nat advertisements)) at 1.
    rewrite find_inverter_loop_timeouts. reflexivity.
  - intros H accepts. replace (Z.to_nat advertisements) with 0%nat by lia.
    reflexivity.
Qed.

(** X25: when an inverter connects during round [k + 1] of at most
    [advertisements], after [k] timeouts, [find_inverter] returns its
    socket and address, having broadcast the advertisement [k + 1] times;
    what [accept] would give later plays no part. *)
Theorem find_inverter_found (advertisements : Z) (k : nat) (c : conn)
  (rest : list (option conn)) :
  Z.of_nat k < advertisements ->
  find_inverter advertisements (repeat None k ++ Some c :: rest)
  = Some (Found c, repeat advertisement (S k)).
Proof.
  intros Hk. unfold find_inverter.
  replace (Z.to_nat advertisements)
    with (k + S (Z.to_nat advertisements - S k))%nat by lia.
  rewrite find_inverter_loop_timeouts. cbn [find_inverter_loop app].
  f_equal. f_equal. clear. induction k as [|k IH]; [reflexivity|].
  cbn [repeat app]. now rewrite IH.
Qed.

End FindInverter.

Lemma find_inverter_found_second_round :
  find_inverter 10 (repeat None 1 ++ Some 1200%nat :: [None])
  = Some (Found 1200%nat, repeat advertisement 2).
Proof.
  apply (find_inverter_found nat 10 1 1200%nat [None]). cbn. lia.
Defined.

(** ** Strings from the inverter *)

Lemma partition_head_no_nul (val : bytes) : ~ In x00 (partition_head val).
Proof.
  induction val as [|b val IH]; cbn [partition_head]; [tauto|].
  destruct (Byte.eqb b x00) eqn:E; [cbn; tauto|].
  apply Byte.eqb_false in E. cbn [In]. intros [H|H]; [congruence | tauto].
Qed.

Lemma partition_head_app (a b : bytes) :
  ~ In x00 a -> partition_head (a ++ x00 :: b) = a.
Proof.
  induction a as [|c a IH]; intros H; [reflexivity|].
  cbn [app partition_head]. cbn [In] in H.
  destruct (Byte.eqb c x00) eqn:E.
  - apply Byte.byte_dec_bl in E. exfalso. apply H. left. now symmetry.
  - rewrite IH by tauto. reflexivity.
Qed.

Lemma partition_head_id (a : bytes) : ~ In x00 a -> partition_head a = a.
Proof.
  induction a as [|c a IH]; intros H; [reflexivity|].
  cbn [partition_head]. cbn [In] in H.
  destruct (Byte.eqb c x00) eqn:E.
  - apply Byte.byte_dec_bl in E. exfalso. apply H. left. now symmetry.
  - rewrite IH by tauto. reflexivity.
Qed.

(** X26: [decode_string] reads a zero-terminated string: what follows
    the first zero byte, the zero byte included, changes nothing, not even
    bytes that are not ASCII. *)
Theorem decode_string_stops_at_nul (a b : bytes) :
  ~ In x00 a ->
  decode_string (a ++ x00 :: b) = decode_string a.
Proof.
  intros H. unfold decode_string.
  now rewrite (partition_head_app a b H), (partition_head_id a H).
Qed.

Lemma decode_string_stops_at_nul_padding :
  decode_string ([x53; x31] ++ x00 :: [x00; xff]) = decode_string [x53; x31].
Proof.
  apply (decode_string_stops_at_nul [x53; x31] [x00; xff]).
  cbn [In]. intros [H|[H|[]]]; discriminate.
Defined.

(** X27: [decode_string] raises [UnicodeDecodeError] exactly when a byte
    of 128 or more stands before the first zero byte. *)
Theorem decode_string_error_iff (val : bytes) :
  decode_string val = UnicodeDecodeError
  <-> exists b, In b (partition_head val) /\ 128 <= byte_val b.
Proof.
  unfold decode_string, decode_ascii.
  destruct (forallb _ _) eqn:E.
  - split; [discriminate|]. intros (b & Hin & Hb).
    rewrite forallb_forall in E. apply E, Z.ltb_lt in Hin. lia.
  - split; [intros _ | reflexivity].
    apply not_true_iff_false in E. rewrite forallb_forall in E.
    induction (partition_head val) as [|b l IH].
    + exfalso. apply E. intros x [].
    + destruct (Z.ltb_spec (byte_val b) 128) as [Hb|Hb].
      * destruct IH as (x & Hin & Hx).
        { intros Hall. apply E. intros x [<-|Hin]; [now apply Z.ltb_lt | auto]. }
        exists x. split; [now right | exact Hx].
      * exists b. split; [now left | exact Hb].
Qed.

(** The characters of a stripped string. *)
Lemma lstrip_head (s : string) (c : Ascii.ascii) (rest : string) :
  lstrip s = String c rest -> isspace c = false.
Proof.
  induction s as [|a s IH]; cbn [lstrip]; [discriminate|].
  destruct (isspace a) eqn:E; [exact IH|]. intros [= <- _]. exact E.
Qed.

Lemma rstrip_head (s : string) (c : Ascii.ascii) (rest : string) :
  rstrip s = String c rest -> exists rest0, s = String c rest0.
Proof.
  destruct s as [|a s]; cbn [rstrip]; [discriminate|].
  destruct (rstrip s); [destruct (isspace a); [discriminate|]|];
    intros [= <- _]; eauto.
Qed.

Lemma rstrip_last (s : string) :
  forall (front : string) (c : Ascii.ascii),
  rstrip s = (front ++ String c EmptyString)%string -> isspace c = false.
Proof.
  induction s as [|a s IH]; intros front c; cbn [rstrip].
  - destruct front; discriminate.
  - destruct (rstrip s) as [|a' r'] eqn:Er.
    + destruct (isspace a) eqn:E; [destruct front; discriminate|].
      destruct front as [|f front]; cbn [append].
      * intros [= <-]. exact E.
      * intros [= _ H]. destruct front; discriminate.
    + destruct front as [|f front]; cbn [append].
      * discriminate.
      * intros [= _ H]. apply (IH front c). exact H.
Qed.

Lemma lstrip_chars (s : string) (c : Ascii.ascii) :
  In c (list_ascii_of_string (lstrip s)) -> In c (list_ascii_of_string s).
Proof.
  induction s as [|a s IH]; cbn [lstrip]; [tauto|].
  destruct (isspace a); [|tauto]. cbn [list_ascii_of_string In]. auto.
Qed.

Lemma rstrip_chars (s : string) (c : Ascii.ascii) :
  In c (list_ascii_of_string (rstrip s)) -> In c (list_ascii_of_string s).
Proof.
  induction s as [|a s IH]; cbn [rstrip]; [tauto|].
  destruct (rstrip s) as [|a' r'].
  - destruct (isspace a); cbn [list_ascii_of_string In]; tauto.
  - cbn [list_ascii_of_string In] in *. tauto.
Qed.

Lemma string_of_list_byte_chars (b : bytes) :
  list_ascii_of_string (string_of_list_byte b) = map Ascii.ascii_of_byte b.
Proof.
  unfold string_of_list_byte. now rewrite list_ascii_of_string_of_list_ascii.
Qed.

(** X28: a string [decode_string] returns neither starts nor ends with a
    whitespace character, and each of its characters is the ASCII
    character of a byte of the input that is not zero and stands before the
    first zero byte. *)
Theorem decode_string_stripped (val : bytes) (s : string) :
  decode_string val = Str s ->
  (forall c rest, s = String c rest -> isspace c = false) /\
  (forall front c, s = (front ++ String c EmptyString)%string -> isspace c = false) /\
  (forall c, In c (list_ascii_of_string s) ->
     exists b, In b (partition_head val) /\ In b val /\ b <> x00 /\
               byte_val b < 128 /\ c = Ascii.ascii_of_byte b).
Proof.
  unfold decode_string, decode_ascii.
  destruct (forallb _ _) eqn:E; [|discriminate].
  intros [= <-]. unfold strip. split; [|split].
  - intros c rest H. destruct (rstrip_head _ _ _ H) as [rest0 H0].
    apply (lstrip_head _ _ _ H0).
  - intros front c H. apply (rstrip_last _ _ _ H).
  - intros c Hc. apply rstrip_chars, lstrip_chars in Hc.
    rewrite string_of_list_byte_chars in Hc.
    apply in_map_iff in Hc as (b & <- & Hin). exists b.
    rewrite forallb_forall in E. pose proof (E b Hin) as Hb. apply Z.ltb_lt in Hb.
    repeat split; try assumption.
    + clear E Hb. induction val as [|x val IH]; [contradiction|].
      cbn [partition_head] in Hin. destruct (Byte.eqb x x00); [contradiction|].
      destruct Hin as [<-|Hin]; [now left | right; auto].
    + intros ->. apply (partition_head_no_nul val Hin).
Qed.

Lemma decode_string_stripped_model_name :
  (forall c rest, "S1"%string = String c rest -> isspace c = false) /\
  (forall front c,
     "S1"%string = (front ++ String c EmptyString)%string -> isspace c = false) /\
  (forall c, In c (list_ascii_of_string "S1") ->
     exists b, In b (partition_head [x20; x53; x31; x20; x00; x41]) /\
               In b [x20; x53; x31; x20; x00; x41] /\ b <> x00 /\
               byte_val b < 128 /\ c = Ascii.ascii_of_byte b).
Proof.
  apply (decode_string_stripped [x20; x53; x31; x20; x00; x41] "S1").
  reflexivity.
Defined.

(** ** Monitor *)

Lemma first_KeyError_None {A} (keys : list string) (d : list (string * A)) :
  first_KeyError keys d = None <-> forall k, In k keys -> lookup k d <> None.
Proof.
  induction keys as [|k keys IH]; cbn [first_KeyError In]; [tauto|].
  destruct (lookup k d) eqn:E.
  - rewrite IH. split.
    + intros H x [<-|Hx]; [congruence | auto].
    + auto.
  - split; [discriminate|]. intros H. exfalso. apply (H k); auto.
Qed.

(** X29: for an inverter whose status format has the type id [51], as a
    three-phase inverter has, no round of the monitor loop gets through its
    display lines: the sample has no [grid_frequency], [grid_voltage] or
    [grid_current], and a subscript raises [KeyError]. *)
Theorem Start_three_phase_KeyError (status_format payload : bytes)
  (status_dict : list (string * Value)) :
  In x51 status_format ->
  status_values status_types status_format payload = Ok status_dict ->
  lookup "grid_frequency" status_dict = None /\
  lookup "grid_voltage" status_dict = None /\
  lookup "grid_current" status_dict = None /\
  exists key, first_KeyError Start_subscripts status_dict = Some key.
Proof.
  intros H51 Hs. apply find_In, Z.eqb_neq in H51.
  assert (Hf : lookup "grid_frequency" status_dict = None).
  { pose proof (sample_lookup _ _ _ "grid_frequency" Hs) as E. revert E.
    registry_field. rewrite IfPresent_get_value, H51. cbn. congruence. }
  assert (Hv : lookup "grid_voltage" status_dict = None).
  { pose proof (sample_lookup _ _ _ "grid_voltage" Hs) as E. revert E.
    registry_field. rewrite IfPresent_get_value, H51. cbn. congruence. }
  assert (Hc : lookup "grid_current" status_dict = None).
  { pose proof (sample_lookup _ _ _ "grid_current" Hs) as E. revert E.
    registry_field. rewrite IfPresent_get_value, H51. cbn. congruence. }
  repeat split; try assumption.
  destruct (first_KeyError Start_subscripts status_dict) as [key|] eqn:E; [eauto|].
  exfalso. rewrite first_KeyError_None in E.
  apply (E "grid_frequency"%string); [|exact Hf].
  cbn. tauto.
Qed.

Lemma Start_three_phase_KeyError_grid :
  let status_dict :=
    [("operation_mode", VStr "Normal");
     ("grid_current_s_phase", VDecimal (mkDecimal 25 (-1)))]%string in
  lookup "grid_frequency" status_dict = None /\
  lookup "grid_voltage" status_dict = None /\
  lookup "grid_current" status_dict = None /\
  exists key, first_KeyError Start_subscripts status_dict = Some key.
Proof.
  apply (Start_three_phase_KeyError [x0c; x51] [x00; x01; x00; x19]).
  - cbn. tauto.
  - reflexivity.
Defined.

(** ** Instances *)

(** A payload of 257 bytes [ff] does not get a frame. *)
Lemma construct_message_returns_iff_large_sum :
  construct_message [x01; x02; x02] (repeat xff 257) = Raise OverflowError.
Proof.
  apply (construct_message_returns_iff [x01; x02; x02] (repeat xff 257)).
  intros [_ H]. vm_compute in H. discriminate.
Defined.

(** The length field [10 01] is 4097. *)
Lemma read_message_outcomes_too_long :
  read_message [x55; xaa; x01; x82; x00; x10; x01; x41; x42]
  = (Raise ValueError, [x41; x42]).
Proof.
  apply (read_message_outcomes [x55; xaa; x01; x82; x00; x10; x01; x41; x42]).
  vm_compute. reflexivity.
Defined.

(** A byte after the two slots of the format [0c 01]. *)
Lemma get_value_reads_slots_only_extra_byte :
  get_value (DecimalStatusType [x01] (-1) false) [x0c; x01]
            (firstn (2 * length [x0c; x01]) [x00; x01; x09; x24; xff])
  = get_value (DecimalStatusType [x01] (-1) false) [x0c; x01]
              [x00; x01; x09; x24; xff].
Proof.
  apply (get_value_reads_slots_only (DecimalStatusType [x01] (-1) false) [x0c; x01]).
Defined.

(** No advertisement at all. *)
Lemma find_inverter_not_found_no_round :
  find_inverter 0 [Some 1200%nat] = Some (Failed InverterNotFoundError, []).
Proof.
  apply (find_inverter_not_found nat 0 []). lia.
Defined.

(** A byte [e9] in the name. *)
Lemma decode_string_error_iff_latin1 :
  decode_string [x53; xe9; x00] = UnicodeDecodeError.
Proof.
  apply (decode_string_error_iff [x53; xe9; x00]).
  exists xe9. split; [cbn; tauto | vm_compute; discriminate].
Defined.
